(** * Registry command-line utilities: embedding and properties

    The repository holds four small [main] programs written against the
    go-containerregistry client library:

    - [registry_crane_curl.go]  (catalog, tag listing, digest resolution by
      HTTP HEAD, optional delete and garbage-collect) -- module [Orchestrate];
    - [delete_resolve_remote.go] (resolve by [remote.Head], delete by
      digest) -- module [DeleteResolve];
    - [pull_and_save.go] (pull an image, save it as a tarball) -- module
      [PullSave];
    - the pull-then-push program that follows it -- module [PullPush].

    Every program is a straight sequence of library and HTTP calls.  The
    embedding keeps that shape: a program is a computation in the monad [M],
    which collects the events of a run (output lines and calls with what they
    returned) and stops at [log.Fatalf].  What the network, the file system
    and the Go libraries answer is taken from a [World]. *)

From Stdlib Require Import ZArith Ascii String List Bool Lia.
From stdpp Require Import base option list strings gmap pretty sorting.

Local Open Scope string_scope.
Local Open Scope list_scope.
Local Open Scope Z_scope.

(** ** The Go standard library, as far as the programs use it *)

Module GoLib.

(** Go's [error]: the programs only print an error or search its text,
    so an error is its [Error()] string. *)
Definition error := string.

(** A call that returns [(T, error)]. *)
Inductive result (A : Type) : Type :=
| Ok (a : A)
| Err (e : error).
Arguments Ok {A} a.
Arguments Err {A} e.

Definition is_err {A} (r : result A) : bool :=
  match r with Ok _ => false | Err _ => true end.

(** A call that returns only an [error]: [nil] is [None]. *)
Definition not_nil (r : option error) : bool :=
  match r with Some _ => true | None => false end.

Definition LF : string := String "010"%char EmptyString.

(** *** package strings *)

Fixpoint HasPrefix (s prefix : string) : bool :=
  match prefix, s with
  | EmptyString, _ => true
  | String _ _, EmptyString => false
  | String b prefix', String a s' => Ascii.eqb a b && HasPrefix s' prefix'
  end.

(** [strings.Contains(s, substr)]. *)
Fixpoint Contains (s substr : string) : bool :=
  HasPrefix s substr ||
  match s with
  | EmptyString => false
  | String _ s' => Contains s' substr
  end.

Fixpoint HasSuffix (s suffix : string) : bool :=
  String.eqb s suffix ||
  match s with
  | EmptyString => false
  | String _ s' => HasSuffix s' suffix
  end.

(** [strings.TrimSuffix(s, suffix)]: [s] without the trailing [suffix],
    or [s] itself when it does not end in [suffix]. *)
Definition TrimSuffix (s suffix : string) : string :=
  if HasSuffix s suffix
  then String.substring 0 (String.length s - String.length suffix) s
  else s.

(** [strings.Join(elems, sep)]. *)
Fixpoint Join (elems : list string) (sep : string) : string :=
  match elems with
  | [] => ""
  | [e] => e
  | e :: rest => e +:+ sep +:+ Join rest sep
  end.

(** *** package time *)

(** [time.Duration] is an [int64] count of nanoseconds. *)
Definition Duration := Z.

Definition wrap64 (z : Z) : Z :=
  (z + 2 ^ 63) mod 2 ^ 64 - 2 ^ 63.

Definition Second : Duration := 1000000000.
Definition Minute : Duration := 60 * Second.

(** [a * b] on [time.Duration]. *)
Definition dmul (a b : Duration) : Duration := wrap64 (a * b).

(** *** package net/http *)

(** [http.Header] is [map[string][]string]. *)
Abbreviation Header := (gmap string (list string)).

(** [Header.Get(key)]: the first value stored under the key, [""] when
    there is none.  The two keys the programs ask for are already in
    canonical form, so the canonicalisation of [key] is the identity. *)
Definition Header_Get (h : Header) (key : string) : string :=
  match h !! key with
  | Some (v :: _) => v
  | _ => ""
  end.

Record Request := {
  Method : string;
  URL : string;
  ReqHeader : Header
}.

Record Response := {
  StatusCode : Z;
  RespHeader : Header;
  Body : string
}.

Definition StatusOK : Z := 200.
Definition MethodHead : string := "HEAD".

(** [io.ReadAll(io.LimitReader(body, n))] with the error dropped: the
    first [n] bytes of what the body delivers. *)
Definition ReadAll_LimitReader (body : string) (n : nat) : string :=
  String.substring 0 n body.

(** *** package fmt *)

Inductive Arg :=
| AStr (s : string)
| AInt (n : Z)
| AErr (e : error)
| AHeader (h : Header).

Definition key_le (a b : string * list string) : Prop :=
  String.leb a.1 b.1 = true.

#[local] Instance key_le_dec a b : Decision (key_le a b).
Proof. unfold key_le. apply _. Defined.

(** [%v] of a [map[string][]string]: [map[k1:[a b] k2:[c]]], keys in
    increasing order. *)
Definition fmt_Header (h : Header) : string :=
  "map[" +:+
  Join (map (fun kv : string * list string =>
               kv.1 +:+ ":[" +:+ Join kv.2 " " +:+ "]")
            (merge_sort key_le (map_to_list h))) " "
  +:+ "]".

(** The text of an operand under the verbs [%s], [%d] and [%v]. *)
Definition fmt_arg (quote : string -> string) (verb : ascii) (a : Arg) : string :=
  match a with
  | AStr s => if Ascii.eqb verb "q" then quote s else s
  | AInt n => pretty n
  | AErr e => e
  | AHeader h => fmt_Header h
  end.

(** [fmt.Sprintf] for the verbs the programs use ([%s], [%d], [%v], [%q]),
    each on the operand kinds they are used with.  [quote] is
    [strconv.Quote], which [%q] applies. *)
Fixpoint Sprintf_with (quote : string -> string) (format : string) (args : list Arg)
  : string :=
  match format with
  | EmptyString => ""
  | String "%" (String verb rest) =>
      match args with
      | a :: args' => fmt_arg quote verb a +:+ Sprintf_with quote rest args'
      | [] => "%!" +:+ String verb "(MISSING)" +:+ Sprintf_with quote rest []
      end
  | String c rest => String c (Sprintf_with quote rest args)
  end.

(** [fmt.Sprint]-style operands of [fmt.Println]: separated by spaces,
    followed by a newline. *)
Definition Sprintln (args : list Arg) : string :=
  Join (map (fmt_arg id "v") args) " " +:+ LF.

(** *** package path/filepath (Unix) *)

Definition is_sep (c : ascii) : bool := Ascii.eqb c "/".

(** The elements of a path between separators. *)
Fixpoint split_sep (cur : string) (path : string) : list string :=
  match path with
  | EmptyString => [cur]
  | String c rest =>
      if is_sep c then cur :: split_sep "" rest
      else split_sep (cur +:+ String c "") rest
  end.

Fixpoint strip_trailing_sep_rev (r : list ascii) : list ascii :=
  match r with
  | c :: r' => if is_sep c then strip_trailing_sep_rev r' else r
  | [] => []
  end.

(** [filepath.Base]: the last element of the path; trailing separators
    are removed first; ["."] for the empty path, ["/"] for a path of
    separators only. *)
Definition Base (path : string) : string :=
  if String.eqb path "" then "."
  else
    let stripped :=
      string_of_list_ascii
        (rev (strip_trailing_sep_rev (rev (list_ascii_of_string path)))) in
    let last_elem := List.last (split_sep "" stripped) "" in
    if String.eqb last_elem "" then "/" else last_elem.

(** One element of the path in [filepath.Clean]; [out] holds the elements
    written so far, last one first. *)
Definition clean_step (rooted : bool) (out : list string) (elem : string)
  : list string :=
  if String.eqb elem "" || String.eqb elem "." then out
  else if String.eqb elem ".." then
    match out with
    | top :: out' =>
        if String.eqb top ".." then elem :: out else out'
    | [] => if rooted then out else [elem]
    end
  else elem :: out.

(** [filepath.Clean]. *)
Definition Clean (path : string) : string :=
  match path with
  | EmptyString => "."
  | String c _ =>
      let rooted := is_sep c in
      let out := fold_left (clean_step rooted) (split_sep "" path) [] in
      let body := Join (rev out) "/" in
      if rooted then "/" +:+ body
      else if String.eqb body "" then "." else body
  end.

(** [filepath.Join]: the elements from the first non-empty one on, joined
    by separators and cleaned; [""] when all are empty. *)
Fixpoint filepath_Join (elem : list string) : string :=
  match elem with
  | [] => ""
  | e :: rest =>
      if String.eqb e "" then filepath_Join rest
      else Clean (Join elem "/")
  end.

End GoLib.

Import GoLib.


(** ** go-containerregistry: the types the programs hold *)

Module Registry.

(** [name.Repository]: a registry host and a repository path. *)
Record Repository := {
  RegistryStr : string;
  RepositoryStr : string
}.

(** [Repository.Name()]. *)
Definition Repository_Name (r : Repository) : string :=
  if String.eqb (RegistryStr r) "" then RepositoryStr r
  else RegistryStr r +:+ "/" +:+ RepositoryStr r.

(** [name.Reference]: a repository and the tag or digest that names one
    manifest in it. *)
Record Reference := {
  Context : Repository;
  Identifier : string
}.

(** The digest of a descriptor.  The program compares it with [""] and
    prints it through [String()], so it is held as its text. *)
Definition Hash := string.
Definition Hash_String (h : Hash) : string := h.

(** [v1.Descriptor], of which only the digest is read. *)
Record Descriptor := {
  Digest : Hash
}.

(** [v1.Image]: an opaque handle to a pulled image. *)
Inductive Image := ImageHandle (id : N).

(** [context.Context]: the background context, or one with a timeout. *)
Inductive Ctx :=
| Background
| WithTimeout (parent : Ctx) (d : Duration).

(** [crane.Option]. *)
Inductive crane_Option :=
| crane_Insecure
| crane_WithContext (ctx : Ctx)
| crane_WithContextTimeout (d : Duration).

(** [remote.Option]. *)
Inductive remote_Option :=
| remote_WithContext (ctx : Ctx).

End Registry.

Import Registry.

(** ** Runs: events, the world, and the monad of a program *)

Module Run.

(** [catalogResponse]: the JSON answer of [/v2/_catalog]. *)
Record catalogResponse := {
  Repositories : list string
}.

(** What a run does that can be seen from outside: the lines it writes and
    the calls it makes, each call with what it returned. *)
Inductive Event :=
| Stdout (s : string)
| LogPrintf (s : string)
| LogFatalf (s : string)
| HttpGet (url : string) (timeout : Duration) (r : result Response)
| HttpDo (req : Request) (timeout : Duration) (r : result Response)
| RemoteList (repo : Repository) (opts : list remote_Option)
             (r : result (list string))
| RemoteHead (ref : Reference) (opts : list remote_Option)
             (r : result Descriptor)
| CraneDelete (ref : string) (opts : list crane_Option) (r : option error)
| CranePull (ref : string) (opts : list crane_Option) (r : result Image)
| CraneSave (img : Image) (tag : string) (path : string) (r : option error)
| CranePush (img : Image) (dst : string) (opts : list crane_Option)
            (r : option error)
| MkdirAll (path : string) (perm : Z) (r : option error)
| CmdRun (args : list string) (r : option error).

Definition Trace := list Event.

(** Everything outside the programs.  The pure library functions come
    first; the calls that reach the network, the file system or a
    subprocess come after, and their answer may depend on the events so
    far (the tags of a repository before and after a delete differ). *)
Record World := {
  strconv_Quote : string -> string;
  json_Decode : string -> result catalogResponse;
  name_NewRepository : string -> result Repository;
  name_ParseReference : string -> result Reference;
  http_NewRequest : string -> string -> option error;
  client_Get : Trace -> string -> Duration -> result Response;
  client_Do : Trace -> Request -> Duration -> result Response;
  remote_List : Trace -> Repository -> list remote_Option -> result (list string);
  remote_Head : Trace -> Reference -> list remote_Option -> result Descriptor;
  crane_Delete : Trace -> string -> list crane_Option -> option error;
  crane_Pull : Trace -> string -> list crane_Option -> result Image;
  crane_Save : Trace -> Image -> string -> string -> option error;
  crane_Push : Trace -> Image -> string -> list crane_Option -> option error;
  os_MkdirAll : Trace -> string -> Z -> option error;
  cmd_Run : Trace -> list string -> option error
}.

(** How a computation ends: it returns a value, or the process has
    exited with a code. *)
Inductive Outcome (A : Type) : Type :=
| Done (a : A)
| Exited (code : Z).
Arguments Done {A} a.
Arguments Exited {A} code.

(** A computation reads the events so far and gives the events it adds
    and its outcome. *)
Definition M (A : Type) : Type := Trace -> Trace * Outcome A.

Definition ret {A} (a : A) : M A := fun _ => ([], Done a).

Definition bind {A B} (m : M A) (k : A -> M B) : M B :=
  fun h =>
    match m h with
    | (es, Done a) =>
        match k a (h ++ es) with
        | (es', o) => (es ++ es', o)
        end
    | (es, Exited c) => (es, Exited c)
    end.

Definition emit (e : Event) : M unit := fun _ => ([e], Done tt).

(** [os.Exit(code)]. *)
Definition exit {A} (code : Z) : M A := fun _ => ([], Exited code).

(** A call to the world, recorded with its answer. *)
Definition call {R} (f : Trace -> R) (ev : R -> Event) : M R :=
  fun h => ([ev (f h)], Done (f h)).

Notation "x <- m ;; k" := (bind m (fun x => k))
  (at level 100, m at next level, right associativity).
Notation "m ;; k" := (bind m (fun _ => k))
  (at level 100, right associativity).

(** [for _, x := range l { body }]. *)
Fixpoint forM_ {A} (l : list A) (body : A -> M unit) : M unit :=
  match l with
  | [] => ret tt
  | x :: l' => body x ;; forM_ l' body
  end.

(** The run of a [main]: its events and the exit code of the process,
    [0] when [main] returns. *)
Definition run (main : M unit) : Trace * Z :=
  match main [] with
  | (es, Done _) => (es, 0)
  | (es, Exited code) => (es, code)
  end.

Section Output.

Variable W : World.

Definition Sprintf : string -> list Arg -> string :=
  Sprintf_with (strconv_Quote W).

Definition Printf (format : string) (args : list Arg) : M unit :=
  emit (Stdout (Sprintf format args)).

Definition Println (args : list Arg) : M unit :=
  emit (Stdout (Sprintln args)).

(** [log.Printf]: one line on the standard logger. *)
Definition log_Printf (format : string) (args : list Arg) : M unit :=
  emit (LogPrintf (Sprintf format args)).

(** [log.Fatalf]: [log.Printf] followed by [os.Exit(1)]. *)
Definition log_Fatalf {A} (format : string) (args : list Arg) : M A :=
  emit (LogFatalf (Sprintf format args)) ;; exit 1.

(** [fmt.Errorf]. *)
Definition Errorf (format : string) (args : list Arg) : error :=
  Sprintf format args.

End Output.

End Run.

Import Run.

(** ** registry_crane_curl.go *)

Module Orchestrate.

Record Flags := {
  registry : string;
  repo : string;
  tag : string;
  doDelete : bool;
  doGC : bool;
  container : string;
  timeoutSec : Z
}.

(** The values of the flags when none is given on the command line. *)
Definition default_flags : Flags := {|
  registry := "localhost:5000";
  repo := "";
  tag := "latest";
  doDelete := false;
  doGC := false;
  container := "local-registry";
  timeoutSec := 10
|}.

Definition Accept_manifests : string :=
  "application/vnd.docker.distribution.manifest.v2+json,application/vnd.oci.image.manifest.v1+json".

Section Program.

Variable W : World.

(** [fetchCatalog]: GET [/v2/_catalog]. *)
Definition fetchCatalog (reg : string) (timeout : Duration)
  : M (result catalogResponse) :=
  let url := Sprintf W "http://%s/v2/_catalog" [AStr reg] in
  resp <- call (fun h => client_Get W h url timeout) (HttpGet url timeout) ;;
  match resp with
  | Err err => ret (Err err)
  | Ok resp =>
      if negb (StatusCode resp =? StatusOK) then
        let b := ReadAll_LimitReader (Body resp) 2048 in
        ret (Err (Errorf W "catalog returned status %d: %s"
                         [AInt (StatusCode resp); AStr b]))
      else
        match json_Decode W (Body resp) with
        | Err err => ret (Err err)
        | Ok c => ret (Ok c)
        end
  end.

(** [resolveDigestHTTP]: HEAD [/v2/<repo>/manifests/<tag>]; the results are
    [(digest, status, body, err)]. *)
Definition resolveDigestHTTP (reg repo tag : string) (timeout : Duration)
  : M (string * Z * string * option error) :=
  let url := Sprintf W "http://%s/v2/%s/manifests/%s"
                     [AStr reg; AStr repo; AStr tag] in
  match http_NewRequest W MethodHead url with
  | Some err => ret ("", 0, "", Some err)
  | None =>
      let req := {| Method := MethodHead; URL := url;
                    ReqHeader := <["Accept" := [Accept_manifests]]> ∅ |} in
      resp <- call (fun h => client_Do W h req timeout) (HttpDo req timeout) ;;
      match resp with
      | Err err => ret ("", 0, "", Some err)
      | Ok resp =>
          let bs := ReadAll_LimitReader (Body resp) 2048 in
          let status := StatusCode resp in
          if 400 <=? status then
            ret ("", status, bs,
                 Some (Errorf W "manifest HEAD returned status %d" [AInt status]))
          else
            let d := Header_Get (RespHeader resp) "Docker-Content-Digest" in
            let d := if String.eqb d ""
                     then Header_Get (RespHeader resp) "Content-Digest"
                     else d in
            if String.eqb d "" then
              ret ("", status, bs,
                   Some (Errorf W "digest header not found; headers: %v"
                                [AHeader (RespHeader resp)]))
            else
              Println [AStr "Digest header found:"; AStr d] ;;
              ret (d, status, bs, None)
      end
  end.

(** [runGarbageCollect]. *)
Definition runGarbageCollect (container : string) : M (option error) :=
  let args := ["docker"; "exec"; "5a77465126df"; "/bin/registry";
               "garbage-collect"; "--delete-untagged";
               "/etc/docker/registry/config.yml"] in
  Printf W ("Running command: %s" +:+ LF) [AStr (Join args " ")] ;;
  call (fun h => cmd_Run W h args) (CmdRun args).

(** The body of the loop of step 2, for one repository of the catalog. *)
Definition listTags (base : string) (r : string) : M unit :=
  let repoRef := Sprintf W "%s/%s" [AStr base; AStr r] in
  Printf W (LF +:+ "Repo: %s" +:+ LF) [AStr repoRef] ;;
  match name_NewRepository W repoRef with
  | Err err => Printf W ("  parsing repository failed: %v" +:+ LF) [AErr err]
  | Ok nrepo =>
      let opts := [remote_WithContext Background] in
      tags <- call (fun h => remote_List W h nrepo opts) (RemoteList nrepo opts) ;;
      match tags with
      | Err err => Printf W ("  remote.List failed: %v" +:+ LF) [AErr err]
      | Ok tags =>
          if (length tags =? 0)%nat then Println [AStr "  (no tags)"]
          else forM_ tags (fun t => Printf W ("  %s" +:+ LF) [AStr t])
      end
  end.

(** The printing of the catalog in step 1. *)
Definition printCatalog (cat : catalogResponse) : M unit :=
  if (length (Repositories cat) =? 0)%nat
  then Println [AStr "No repositories in catalog."]
  else forM_ (Repositories cat) (fun r => Println [AStr " -"; AStr r]).

(** Steps 3 to 5 of [main], taken when [-delete] is set. *)
Definition deleteSteps (f : Flags) (base : string) (timeout : Duration) : M unit :=
  if String.eqb (repo f) "" then
    log_Fatalf W "please provide -repo when using -delete" []
  else
    Printf W (LF +:+ "==> 3. Resolving digest for %s:%s using HEAD /v2/<repo>/manifests/<tag>" +:+ LF)
           [AStr (repo f); AStr (tag f)] ;;
    res <- resolveDigestHTTP base (repo f) (tag f) timeout ;;
    match res with
    | (_, status, body, Some err) =>
        log_Fatalf W ("resolveDigestHTTP failed (status %d): %v" +:+ LF +:+ "body: %s")
                   [AInt status; AErr err; AStr body]
    | (digest, _, _, None) =>
        Printf W ("Resolved digest: %s" +:+ LF) [AStr digest] ;;
        let delRef := Sprintf W "%s/%s@%s" [AStr base; AStr (repo f); AStr digest] in
        Printf W (LF +:+ "==> 4. Deleting manifest via crane.Delete(%s)" +:+ LF)
               [AStr delRef] ;;
        let opts := [crane_Insecure; crane_WithContext Background] in
        derr <- call (fun h => crane_Delete W h delRef opts) (CraneDelete delRef opts) ;;
        match derr with
        | Some err =>
            let es := err in
            if Contains es "UNSUPPORTED" then
              log_Fatalf W "crane.Delete returned UNSUPPORTED: deletes likely disabled on registry. Enable with REGISTRY_STORAGE_DELETE_ENABLED=true or storage.delete.enabled: true in config.yml. Error: %v" [AErr err]
            else if Contains es "DIGEST_INVALID" then
              log_Fatalf W "crane.Delete returned DIGEST_INVALID: server rejected digest. Ensure HEAD used proper Accept header and the digest matches server's manifest. Error: %v" [AErr err]
            else
              log_Fatalf W "crane.Delete failed: %v" [AErr err]
        | None =>
            Println [AStr "Delete request accepted by registry (HTTP 202)."] ;;
            (if doGC f then
               Printf W (LF +:+ "==> 5. Running garbage-collect inside container '%s'" +:+ LF)
                      [AStr (container f)] ;;
               gerr <- runGarbageCollect (container f) ;;
               match gerr with
               | Some err => log_Fatalf W "runGarbageCollect failed: %v" [AErr err]
               | None =>
                   Println [AStr "Garbage-collect completed (check container logs/output)."]
               end
             else ret tt) ;;
            Println [AStr (LF +:+ "All done.")]
        end
    end.

(** [main], after [flag.Parse()]. *)
Definition main (f : Flags) : M unit :=
  let timeout := dmul (timeoutSec f) Second in
  let base := TrimSuffix (registry f) "/" in
  Printf W ("Registry: %s" +:+ LF) [AStr base] ;;
  Println [AStr (LF +:+ "==> 1. Listing catalog via HTTP GET /v2/_catalog")] ;;
  cat <- fetchCatalog base timeout ;;
  match cat with
  | Err err => log_Fatalf W "fetchCatalog failed: %v" [AErr err]
  | Ok cat =>
      printCatalog cat ;;
      Println [AStr (LF +:+ "==> 2. Listing tags for each repository using remote.List()")] ;;
      forM_ (Repositories cat) (listTags base) ;;
      if negb (doDelete f) then
        Println [AStr (LF +:+ "Done (no delete requested).")]
      else
        deleteSteps f base timeout
  end.

End Program.

End Orchestrate.

(** ** delete_resolve_remote.go *)

Module DeleteResolve.

(** The value of [-ref] when it is not given. *)
Definition default_ref : string := "localhost:5000/mybusybox:latest".

Section Program.

Variable W : World.

(** [printTags]: the tags of the repository of [ref], by [remote.List]. *)
Definition printTags (ref : Reference) : M (option error) :=
  let repo := Context ref in
  Printf W (LF +:+ "Tags for repo %s:" +:+ LF) [AStr (Repository_Name repo)] ;;
  tags <- call (fun h => remote_List W h repo []) (RemoteList repo []) ;;
  match tags with
  | Err err => ret (Some err)
  | Ok tags =>
      if (length tags =? 0)%nat then
        Println [AStr "  (no tags)"] ;; ret None
      else
        forM_ tags (fun t => Printf W ("  %s" +:+ LF) [AStr t]) ;; ret None
  end.

(** [main], after [flag.Parse()]. *)
Definition main (refStr : string) : M unit :=
  match name_ParseReference W refStr with
  | Err err =>
      log_Fatalf W "parsing reference %q: %v" [AStr refStr; AErr err]
  | Ok ref =>
      let ctxHead := WithTimeout Background (10 * Second) in
      let hopts := [remote_WithContext ctxHead] in
      desc <- call (fun h => remote_Head W h ref hopts) (RemoteHead ref hopts) ;;
      match desc with
      | Err err =>
          if Contains err "MANIFEST_UNKNOWN" || Contains err "404" then
            log_Fatalf W ("manifest not found for %s: %v" +:+ LF +:+ "Make sure the tag exists (docker push localhost:5000/<repo>:<tag>)")
                       [AStr refStr; AErr err]
          else
            log_Fatalf W "remote.Head failed: %v" [AErr err]
      | Ok desc =>
          let digest := Digest desc in
          if String.eqb digest "" then
            log_Fatalf W "no digest found in descriptor for %s" [AStr refStr]
          else
            Printf W ("Resolved digest: %s" +:+ LF) [AStr (Hash_String digest)] ;;
            terr <- printTags ref ;;
            match terr with
            | Some err => Printf W ("Warning: unable to list tags: %v" +:+ LF) [AErr err]
            | None => ret tt
            end ;;
            let delRef := Sprintf W "%s@%s" [AStr (Repository_Name (Context ref));
                                             AStr (Hash_String digest)] in
            Printf W ("Deleting manifest: %s" +:+ LF) [AStr delRef] ;;
            derr <- call (fun h => crane_Delete W h delRef [crane_Insecure])
                         (CraneDelete delRef [crane_Insecure]) ;;
            match derr with
            | Some err =>
                if Contains err "UNSUPPORTED" then
                  log_Fatalf W ("crane.Delete failed: %v" +:+ LF +:+ "Registry likely has deletes disabled. Recreate registry with REGISTRY_STORAGE_DELETE_ENABLED=true or add storage.delete.enabled: true in config.yml")
                             [AErr err]
                else
                  log_Fatalf W "crane.Delete failed: %v" [AErr err]
            | None =>
                Println [AStr "Delete request sent successfully."] ;;
                terr <- printTags ref ;;
                match terr with
                | Some err =>
                    Printf W ("Warning: unable to list tags after delete: %v" +:+ LF)
                           [AErr err]
                | None => ret tt
                end
            end
      end
  end.

End Program.

End DeleteResolve.

(** ** pull_and_save.go *)

Module PullSave.

Record Flags := {
  registry : string;
  repo : string;
  tag : string;
  out : string;
  insecure : bool
}.

Definition default_flags : Flags := {|
  registry := "localhost:5000";
  repo := "";
  tag := "latest";
  out := "";
  insecure := true
|}.

Section Program.

Variable W : World.

(** The part of [main] from the pull on; [out] is the output path that the
    first part has settled. *)
Definition pullAndSave (f : Flags) (out : string) : M unit :=
  let refStr := Sprintf W "%s/%s:%s" [AStr (registry f); AStr (repo f); AStr (tag f)] in
  log_Printf W "Pulling %s ..." [AStr refStr] ;;
  let opts := [] in
  let opts := if insecure f then opts ++ [crane_Insecure] else opts in
  let opts := opts ++ [crane_WithContextTimeout (10 * Minute)] in
  img <- call (fun h => crane_Pull W h refStr opts) (CranePull refStr opts) ;;
  match img with
  | Err err => log_Fatalf W "crane.Pull failed: %v" [AErr err]
  | Ok img =>
      serr <- call (fun h => crane_Save W h img refStr out) (CraneSave img refStr out) ;;
      match serr with
      | Some err => log_Fatalf W "crane.Save failed: %v" [AErr err]
      | None =>
          log_Printf W "Saved image to %s" [AStr out] ;;
          log_Printf W "You can load it with: docker load -i %s" [AStr out]
      end
  end.

(** [main], after [flag.Parse()]. *)
Definition main (f : Flags) : M unit :=
  if String.eqb (repo f) "" then
    log_Fatalf W "please provide --repo (e.g. --repo golang)" []
  else if String.eqb (out f) "" then
    let folder := "downloaded-images" in
    merr <- call (fun h => os_MkdirAll W h folder 493) (MkdirAll folder 493) ;;
    match merr with
    | Some err => log_Fatalf W "failed to create output folder: %v" [AErr err]
    | None =>
        let base := Sprintf W "%s_%s.tar" [AStr (Base (repo f)); AStr (tag f)] in
        pullAndSave f (filepath_Join [folder; base])
    end
  else
    pullAndSave f (out f).

End Program.

End PullSave.

(** ** The pull-then-push program *)

Module PullPush.

Section Program.

Variable W : World.

Definition main : M unit :=
  let src := "busybox:latest" in
  Println [AStr "Pulling"; AStr src] ;;
  let popts := [crane_WithContext Background] in
  img <- call (fun h => crane_Pull W h src popts) (CranePull src popts) ;;
  match img with
  | Err err => log_Fatalf W "crane.Pull: %v" [AErr err]
  | Ok img =>
      let dst := "localhost:5000/mybusybox:latest" in
      Println [AStr "Pushing"; AStr dst] ;;
      let opts := [crane_Insecure; crane_WithContext Background] in
      perr <- call (fun h => crane_Push W h img dst opts) (CranePush img dst opts) ;;
      match perr with
      | Some err => log_Fatalf W "crane.Push: %v" [AErr err]
      | None => Println [AStr "Push complete:"; AStr dst]
      end
  end.

End Program.

End PullPush.

(** ** Reading a run *)

Module Observe.

Definition is_stdout (e : Event) : bool :=
  match e with Stdout _ => true | _ => false end.

Definition is_fatal (e : Event) : bool :=
  match e with LogFatalf _ => true | _ => false end.

(** A tag listing by [remote.List]. *)
Definition is_list (e : Event) : bool :=
  match e with RemoteList _ _ _ => true | _ => false end.

(** The calls that go to the registry: library calls and raw HTTP. *)
Definition is_network (e : Event) : bool :=
  match e with
  | HttpGet _ _ _ | HttpDo _ _ _ | RemoteList _ _ _ | RemoteHead _ _ _
  | CraneDelete _ _ _ | CranePull _ _ _ | CranePush _ _ _ _ => true
  | _ => false
  end.

(** The call of the event returned an error to the program. *)
Definition failed (e : Event) : bool :=
  match e with
  | Stdout _ | LogPrintf _ | LogFatalf _ => false
  | HttpGet _ _ r | HttpDo _ _ r => is_err r
  | RemoteList _ _ r => is_err r
  | RemoteHead _ _ r => is_err r
  | CranePull _ _ r => is_err r
  | CraneDelete _ _ r | CraneSave _ _ _ r | CranePush _ _ _ r
  | MkdirAll _ _ r | CmdRun _ r => not_nil r
  end.

(** An HTTP answer from which the program's own wrapper
    ([fetchCatalog], [resolveDigestHTTP]) makes an error, or a descriptor
    without digest. *)
Definition rejected (W : World) (e : Event) : bool :=
  match e with
  | HttpGet _ _ (Ok resp) =>
      negb (StatusCode resp =? StatusOK) || is_err (json_Decode W (Body resp))
  | HttpDo _ _ (Ok resp) =>
      (400 <=? StatusCode resp) ||
      (String.eqb (Header_Get (RespHeader resp) "Docker-Content-Digest") "" &&
       String.eqb (Header_Get (RespHeader resp) "Content-Digest") "")
  | RemoteHead _ _ (Ok desc) => String.eqb (Digest desc) ""
  | _ => false
  end.

(** The call went through and its answer was taken. *)
Definition accepted (W : World) (e : Event) : bool :=
  negb (failed e || rejected W e).

(** A call to the registry returned an error. *)
Definition net_error (e : Event) : bool := is_network e && failed e.

(** An error the programs do not go on from: any failed or rejected call
    other than a tag listing. *)
Definition unrecoverable (W : World) (e : Event) : bool :=
  (failed e || rejected W e) && negb (is_list e).

(** [P] holds of every event of the run together with the events after
    it. *)
Fixpoint followed (P : Event -> Trace -> bool) (tr : Trace) : bool :=
  match tr with
  | [] => true
  | e :: rest => P e rest && followed P rest
  end.

(** The events after [e] are one fatal log line and nothing more. *)
Definition then_fatal (rest : Trace) : bool :=
  match rest with
  | [LogFatalf _] => true
  | _ => false
  end.

(** Every event that [bad] selects is followed by a fatal log line that
    ends the run. *)
Definition errors_terminate (bad : Event -> bool) : Trace -> bool :=
  followed (fun e rest => if bad e then then_fatal rest else true).

(** Every event for which [msg] gives a text is followed by the fatal log
    line with that text, which ends the run. *)
Definition fatal_with (msg : Event -> option string) : Trace -> bool :=
  followed (fun e rest =>
              match msg e, rest with
              | Some m, [LogFatalf m'] => String.eqb m m'
              | Some _, _ => false
              | None, _ => true
              end).

(** An event for which [msg] gives a text. *)
Definition has_message (msg : Event -> option string) (e : Event) : bool :=
  match msg e with Some _ => true | None => false end.

(** The next event after every tag listing is a line of output. *)
Definition listings_reported : Trace -> bool :=
  followed (fun e rest =>
              if is_list e
              then match rest with Stdout _ :: _ => true | _ => false end
              else true).

(** Output only. *)
Definition quiet (es : Trace) : Prop := forallb is_stdout es = true.

(** Output and tag listings only, every tag listing with output right
    after it: what the loops over repositories and tags add. *)
Definition tag_event (e : Event) : bool := is_stdout e || is_list e.

Definition listing (es : Trace) : Prop :=
  forallb tag_event es = true /\ listings_reported es = true.

(** The last event of the run is a fatal log line. *)
Definition ends_fatal (tr : Trace) : bool :=
  match last tr with
  | Some (LogFatalf _) => true
  | _ => false
  end.

(** The steps of the orchestration program. *)
Inductive Step := SCatalog | STags | SDigest | SDelete | SGC.

(** The step an event belongs to, with whether the step went through. *)
Definition step_of (W : World) (e : Event) : option (Step * bool) :=
  match e with
  | HttpGet _ _ _ => Some (SCatalog, accepted W e)
  | RemoteList _ _ _ => Some (STags, accepted W e)
  | HttpDo _ _ _ => Some (SDigest, accepted W e)
  | CraneDelete _ _ _ => Some (SDelete, accepted W e)
  | CmdRun _ _ => Some (SGC, accepted W e)
  | _ => None
  end.

Definition steps (W : World) (tr : Trace) : list (Step * bool) :=
  omap (step_of W) tr.

(** The command line the garbage-collection step is documented to run. *)
Definition gc_command (container : string) : list string :=
  ["docker"; "exec"; container; "/bin/registry"; "garbage-collect";
   "--delete-untagged"; "/etc/docker/registry/config.yml"].

(** The arguments of the subprocesses of a run. *)
Definition commands (tr : Trace) : list (list string) :=
  omap (fun e => match e with CmdRun args _ => Some args | _ => None end) tr.

(** The paths at which a run has saved a tarball. *)
Definition saved_paths (tr : Trace) : list string :=
  omap (fun e => match e with
                 | CraneSave _ _ path None => Some path
                 | _ => None
                 end) tr.

(** The references that a run has asked the registry to delete. *)
Definition delete_refs (tr : Trace) : list string :=
  omap (fun e => match e with CraneDelete ref _ _ => Some ref | _ => None end) tr.

(** A pull is made with the context timeout [d]. *)
Definition pull_timeout (d : Duration) (e : Event) : bool :=
  match e with
  | CranePull _ opts _ =>
      existsb (fun o => match o with
                        | crane_WithContextTimeout d' => d' =? d
                        | _ => false
                        end) opts
  | _ => true
  end.

(** A [remote.Head] is made under a context with the timeout [d]. *)
Definition head_deadline (d : Duration) (e : Event) : bool :=
  match e with
  | RemoteHead _ [remote_WithContext (WithTimeout Background d')] _ => d' =? d
  | RemoteHead _ _ _ => false
  | _ => true
  end.

Definition is_pull (e : Event) : bool :=
  match e with CranePull _ _ _ => true | _ => false end.

Definition is_remote_head (e : Event) : bool :=
  match e with RemoteHead _ _ _ => true | _ => false end.

Definition is_http_head (e : Event) : bool :=
  match e with HttpDo _ _ _ => true | _ => false end.

(** How a run ends.  The exit code is [0] or [1]; it is [1] exactly when
    the program was [refused] what it needs before any call, or some call
    ended in an unrecoverable error; and then, and only then, the run has
    a fatal log line, which is its last event. *)
Definition exits_as (W : World) (refused : bool) (r : Trace * Z) : Prop :=
  (snd r = 0 \/ snd r = 1) /\
  (snd r =? 1) = (refused || existsb (unrecoverable W) (fst r)) /\
  ends_fatal (fst r) = (snd r =? 1) /\
  existsb is_fatal (fst r) = (snd r =? 1).

(** How a run deals with errors: an unrecoverable error is followed by
    one fatal log line, which ends the run with exit code [1]; a tag
    listing, failed or not, is followed by a line of output. *)
Definition errors_end_run (W : World) (r : Trace * Z) : Prop :=
  errors_terminate (unrecoverable W) (fst r) = true /\
  implb (existsb (unrecoverable W) (fst r)) (snd r =? 1) = true /\
  listings_reported (fst r) = true.

End Observe.

Import Observe.

(** ** Sample worlds *)

Module Sample.

Definition digest1 : string :=
  "sha256:9f86d081884c7d659a2feaa0c55ad015a3bf4f1b2b0b822cd15d6c15b0f00a08".

(** What the registry answers to each kind of call. *)
Record Answers := {
  on_Get : result Response;
  on_Decode : result catalogResponse;
  on_Head : result Response;
  on_List : result (list string);
  on_RemoteHead : result Descriptor;
  on_Delete : option error
}.

(** A registry with the repository [golang] and its tag [1.21-alpine], on
    which every call goes through. *)
Definition fine : Answers := {|
  on_Get := Ok {| StatusCode := 200; RespHeader := ∅; Body := "{}" |};
  on_Decode := Ok {| Repositories := ["golang"] |};
  on_Head := Ok {| StatusCode := 200;
                   RespHeader := <["Docker-Content-Digest" := [digest1]]> ∅;
                   Body := "" |};
  on_List := Ok ["1.21-alpine"];
  on_RemoteHead := Ok {| Digest := digest1 |};
  on_Delete := None
|}.

(** The same registry, with [remote.List] failing. *)
Definition list_fails : Answers := {|
  on_Get := on_Get fine;
  on_Decode := on_Decode fine;
  on_Head := on_Head fine;
  on_List := Err "Get http://localhost:5000/v2/golang/tags/list: context deadline exceeded";
  on_RemoteHead := on_RemoteHead fine;
  on_Delete := on_Delete fine
|}.

(** The same registry, with deletes disabled. *)
Definition delete_unsupported : Answers := {|
  on_Get := on_Get fine;
  on_Decode := on_Decode fine;
  on_Head := on_Head fine;
  on_List := on_List fine;
  on_RemoteHead := on_RemoteHead fine;
  on_Delete := Some "DELETE http://localhost:5000/v2/golang/manifests/sha256: UNSUPPORTED: The operation is unsupported."
|}.

(** A registry that does not know the manifest. *)
Definition manifest_unknown : Answers := {|
  on_Get := on_Get fine;
  on_Decode := on_Decode fine;
  on_Head := Ok {| StatusCode := 404; RespHeader := ∅; Body := "" |};
  on_List := on_List fine;
  on_RemoteHead := Err "HEAD http://localhost:5000/v2/mybusybox/manifests/latest: unexpected status code 404 Not Found";
  on_Delete := on_Delete fine
|}.

(** A registry whose catalog endpoint answers 500. *)
Definition catalog_down : Answers := {|
  on_Get := Ok {| StatusCode := 500; RespHeader := ∅; Body := "internal error" |};
  on_Decode := on_Decode fine;
  on_Head := on_Head fine;
  on_List := on_List fine;
  on_RemoteHead := on_RemoteHead fine;
  on_Delete := on_Delete fine
|}.

(** The world around a registry that answers [a]: every reference is
    taken to name [localhost:5000/mybusybox:latest], a repository string
    is taken as the repository path, the decoder gives the catalog of [a]
    for any body, and local calls go through. *)
Definition world (a : Answers) : World := {|
  strconv_Quote := fun s => String "034" (s +:+ String "034" EmptyString);
  json_Decode := fun _ => on_Decode a;
  name_NewRepository := fun s =>
    Ok {| RegistryStr := ""; RepositoryStr := s |};
  name_ParseReference := fun s =>
    Ok {| Context := {| RegistryStr := "localhost:5000"; RepositoryStr := "mybusybox" |};
          Identifier := "latest" |};
  http_NewRequest := fun _ _ => None;
  client_Get := fun _ _ _ => on_Get a;
  client_Do := fun _ _ _ => on_Head a;
  remote_List := fun _ _ _ => on_List a;
  remote_Head := fun _ _ _ => on_RemoteHead a;
  crane_Delete := fun _ _ _ => on_Delete a;
  crane_Pull := fun _ _ _ => Ok (ImageHandle 1);
  crane_Save := fun _ _ _ _ => None;
  crane_Push := fun _ _ _ _ => None;
  os_MkdirAll := fun _ _ _ => None;
  cmd_Run := fun _ _ => None
|}.

(** [-repo golang -delete -gc], the other flags left at their defaults. *)
Definition delete_gc_flags : Orchestrate.Flags := {|
  Orchestrate.registry := "localhost:5000";
  Orchestrate.repo := "golang";
  Orchestrate.tag := "latest";
  Orchestrate.doDelete := true;
  Orchestrate.doGC := true;
  Orchestrate.container := "local-registry";
  Orchestrate.timeoutSec := 10
|}.

(** [--repo library/golang], the other flags left at their defaults. *)
Definition nested_repo_flags : PullSave.Flags := {|
  PullSave.registry := "localhost:5000";
  PullSave.repo := "library/golang";
  PullSave.tag := "latest";
  PullSave.out := "";
  PullSave.insecure := true
|}.

End Sample.

(** ** The shape of the runs of the orchestration program *)

Module OrchestrateRuns.

Import Orchestrate.

(** The digest that [resolveDigestHTTP] reads from the headers. *)
Definition header_digest (resp : Response) : string :=
  if String.eqb (Header_Get (RespHeader resp) "Docker-Content-Digest") ""
  then Header_Get (RespHeader resp) "Content-Digest"
  else Header_Get (RespHeader resp) "Docker-Content-Digest".

Section Shape.

Variable W : World.
Variable f : Flags.

Definition base : string := TrimSuffix (registry f) "/".
Definition timeout : Duration := dmul (timeoutSec f) Second.

Definition catalog_url : string :=
  Sprintf W "http://%s/v2/_catalog" [AStr base].

Definition head_request : Request := {|
  Method := MethodHead;
  URL := Sprintf W "http://%s/v2/%s/manifests/%s"
                 [AStr base; AStr (repo f); AStr (tag f)];
  ReqHeader := <["Accept" := [Accept_manifests]]> ∅
|}.

Definition delete_ref (digest : string) : string :=
  Sprintf W "%s/%s@%s" [AStr base; AStr (repo f); AStr digest].

Definition delete_opts : list crane_Option :=
  [crane_Insecure; crane_WithContext Background].

(** The fatal line after a failed [crane.Delete]. *)
Definition delete_message (err : error) : string :=
  if Contains err "UNSUPPORTED" then
    Sprintf W "crane.Delete returned UNSUPPORTED: deletes likely disabled on registry. Enable with REGISTRY_STORAGE_DELETE_ENABLED=true or storage.delete.enabled: true in config.yml. Error: %v" [AErr err]
  else if Contains err "DIGEST_INVALID" then
    Sprintf W "crane.Delete returned DIGEST_INVALID: server rejected digest. Ensure HEAD used proper Accept header and the digest matches server's manifest. Error: %v" [AErr err]
  else
    Sprintf W "crane.Delete failed: %v" [AErr err].

(** The command line that [runGarbageCollect] runs. *)
Definition gc_args : list string :=
  ["docker"; "exec"; "5a77465126df"; "/bin/registry"; "garbage-collect";
   "--delete-untagged"; "/etc/docker/registry/config.yml"].

(** The runs of steps 3 to 5: the events added and how they end. *)
Inductive DeleteRun : Trace -> Outcome unit -> Prop :=
| DR_no_repo m :
    repo f = "" ->
    DeleteRun [LogFatalf m] (Exited 1)
| DR_bad_request q e m :
    repo f <> "" -> quiet q ->
    http_NewRequest W MethodHead (URL head_request) = Some e ->
    DeleteRun (q ++ [LogFatalf m]) (Exited 1)
| DR_head_failed q r m :
    repo f <> "" -> quiet q ->
    http_NewRequest W MethodHead (URL head_request) = None ->
    accepted W (HttpDo head_request timeout r) = false ->
    DeleteRun (q ++ [HttpDo head_request timeout r; LogFatalf m]) (Exited 1)
| DR_delete_failed q resp q' e :
    repo f <> "" -> quiet q -> quiet q' ->
    http_NewRequest W MethodHead (URL head_request) = None ->
    accepted W (HttpDo head_request timeout (Ok resp)) = true ->
    DeleteRun (q ++ HttpDo head_request timeout (Ok resp) :: q' ++
               [CraneDelete (delete_ref (header_digest resp)) delete_opts (Some e);
                LogFatalf (delete_message e)])
              (Exited 1)
| DR_deleted q resp q' q'' :
    repo f <> "" -> quiet q -> quiet q' -> quiet q'' ->
    http_NewRequest W MethodHead (URL head_request) = None ->
    accepted W (HttpDo head_request timeout (Ok resp)) = true ->
    doGC f = false ->
    DeleteRun (q ++ HttpDo head_request timeout (Ok resp) :: q' ++
               CraneDelete (delete_ref (header_digest resp)) delete_opts None :: q'')
              (Done tt)
| DR_gc_failed q resp q' q'' e m :
    repo f <> "" -> quiet q -> quiet q' -> quiet q'' ->
    http_NewRequest W MethodHead (URL head_request) = None ->
    accepted W (HttpDo head_request timeout (Ok resp)) = true ->
    doGC f = true ->
    DeleteRun (q ++ HttpDo head_request timeout (Ok resp) :: q' ++
               CraneDelete (delete_ref (header_digest resp)) delete_opts None :: q'' ++
               [CmdRun gc_args (Some e); LogFatalf m])
              (Exited 1)
| DR_gc_done q resp q' q'' q''' :
    repo f <> "" -> quiet q -> quiet q' -> quiet q'' -> quiet q''' ->
    http_NewRequest W MethodHead (URL head_request) = None ->
    accepted W (HttpDo head_request timeout (Ok resp)) = true ->
    doGC f = true ->
    DeleteRun (q ++ HttpDo head_request timeout (Ok resp) :: q' ++
               CraneDelete (delete_ref (header_digest resp)) delete_opts None :: q'' ++
               CmdRun gc_args None :: q''')
              (Done tt).

(** The runs of [main]: the events and the exit code. *)
Inductive MainRun : Trace -> Z -> Prop :=
| MR_catalog_failed q g m :
    quiet q ->
    accepted W (HttpGet catalog_url timeout g) = false ->
    MainRun (q ++ [HttpGet catalog_url timeout g; LogFatalf m]) 1
| MR_listed q resp c l q' :
    quiet q -> listing l -> quiet q' ->
    accepted W (HttpGet catalog_url timeout (Ok resp)) = true ->
    json_Decode W (Body resp) = Ok c ->
    (length (List.filter is_list l) <= length (Repositories c))%nat ->
    doDelete f = false ->
    MainRun (q ++ HttpGet catalog_url timeout (Ok resp) :: l ++ q') 0
| MR_delete q resp c l es o :
    quiet q -> listing l ->
    accepted W (HttpGet catalog_url timeout (Ok resp)) = true ->
    json_Decode W (Body resp) = Ok c ->
    (length (List.filter is_list l) <= length (Repositories c))%nat ->
    doDelete f = true ->
    DeleteRun es o ->
    MainRun (q ++ HttpGet catalog_url timeout (Ok resp) :: l ++ es)
            (match o with Done _ => 0 | Exited code => code end).

(** The text of the fatal line that must follow an event, where the
    program chooses it by the text of the error. *)
Definition site_message (e : Event) : option string :=
  match e with
  | CraneDelete _ _ (Some err) => Some (delete_message err)
  | _ => None
  end.

(** [-delete] is set, and the digest cannot be asked for: [-repo] is
    missing, or no request can be made of the URL. *)
Definition refused : bool :=
  doDelete f &&
  (String.eqb (repo f) "" ||
   not_nil (http_NewRequest W MethodHead (URL head_request))).

(** The HEAD request is made with the timeout that [-timeout] gives. *)
Definition head_timeout (e : Event) : bool :=
  match e with
  | HttpDo _ t _ => t =? timeout
  | _ => true
  end.

(** The order of the steps, as the description of the program gives it:
    the catalog, a tag listing per repository, and only with [-delete] the
    digest, then the delete, and only with [-gc] after a delete that went
    through, the garbage collection. *)
Inductive InOrder : list (Step * bool) -> Z -> Prop :=
| IO_catalog_failed :
    InOrder [(SCatalog, false)] 1
| IO_listed oks :
    doDelete f = false ->
    InOrder ((SCatalog, true) :: map (pair STags) oks) 0
| IO_not_resolved oks :
    doDelete f = true ->
    InOrder ((SCatalog, true) :: map (pair STags) oks) 1
| IO_digest_failed oks :
    doDelete f = true ->
    InOrder ((SCatalog, true) :: map (pair STags) oks ++ [(SDigest, false)]) 1
| IO_delete_failed oks :
    doDelete f = true ->
    InOrder ((SCatalog, true) :: map (pair STags) oks ++
             [(SDigest, true); (SDelete, false)]) 1
| IO_deleted oks :
    doDelete f = true -> doGC f = false ->
    InOrder ((SCatalog, true) :: map (pair STags) oks ++
             [(SDigest, true); (SDelete, true)]) 0
| IO_collected oks okg :
    doDelete f = true -> doGC f = true ->
    InOrder ((SCatalog, true) :: map (pair STags) oks ++
             [(SDigest, true); (SDelete, true); (SGC, okg)])
            (if okg then 0 else 1).

End Shape.

(** The number of repositories in the catalog that a run has fetched. *)
Fixpoint catalog_size (W : World) (tr : Trace) : nat :=
  match tr with
  | [] => 0
  | HttpGet _ _ (Ok resp) :: _ =>
      match json_Decode W (Body resp) with
      | Ok c => length (Repositories c)
      | Err _ => 0
      end
  | _ :: rest => catalog_size W rest
  end.

End OrchestrateRuns.

(** ** The shape of the runs of the delete/resolve program *)

Module DeleteResolveRuns.

Section Shape.

Variable W : World.
Variable refStr : string.

Definition head_opts : list remote_Option :=
  [remote_WithContext (WithTimeout Background (10 * Second))].

(** The fatal line after a failed [remote.Head]. *)
Definition head_message (err : error) : string :=
  if Contains err "MANIFEST_UNKNOWN" || Contains err "404" then
    Sprintf W ("manifest not found for %s: %v" +:+ LF +:+ "Make sure the tag exists (docker push localhost:5000/<repo>:<tag>)")
            [AStr refStr; AErr err]
  else
    Sprintf W "remote.Head failed: %v" [AErr err].

(** The fatal line after a failed [crane.Delete]. *)
Definition delete_message (err : error) : string :=
  if Contains err "UNSUPPORTED" then
    Sprintf W ("crane.Delete failed: %v" +:+ LF +:+ "Registry likely has deletes disabled. Recreate registry with REGISTRY_STORAGE_DELETE_ENABLED=true or add storage.delete.enabled: true in config.yml")
            [AErr err]
  else
    Sprintf W "crane.Delete failed: %v" [AErr err].

(** The reference that is deleted: the repository of [ref] at [digest]. *)
Definition delete_ref (ref : Reference) (digest : Hash) : string :=
  Sprintf W "%s@%s" [AStr (Repository_Name (Context ref)); AStr (Hash_String digest)].

(** The runs of [main]: the events and the exit code. *)
Inductive MainRun : Trace -> Z -> Prop :=
| MR_parse_failed e m :
    name_ParseReference W refStr = Err e ->
    MainRun [LogFatalf m] 1
| MR_head_failed ref e :
    name_ParseReference W refStr = Ok ref ->
    MainRun [RemoteHead ref head_opts (Err e); LogFatalf (head_message e)] 1
| MR_no_digest ref desc m :
    name_ParseReference W refStr = Ok ref ->
    Digest desc = "" ->
    MainRun [RemoteHead ref head_opts (Ok desc); LogFatalf m] 1
| MR_delete_failed ref desc l e :
    name_ParseReference W refStr = Ok ref ->
    Digest desc <> "" -> listing l ->
    MainRun (RemoteHead ref head_opts (Ok desc) :: l ++
             [CraneDelete (delete_ref ref (Digest desc)) [crane_Insecure] (Some e);
              LogFatalf (delete_message e)]) 1
| MR_deleted ref desc l l' :
    name_ParseReference W refStr = Ok ref ->
    Digest desc <> "" -> listing l -> listing l' ->
    MainRun (RemoteHead ref head_opts (Ok desc) :: l ++
             CraneDelete (delete_ref ref (Digest desc)) [crane_Insecure] None :: l') 0.

(** The text of the fatal line that must follow an event, where the
    program chooses it by the text of the error. *)
Definition site_message (e : Event) : option string :=
  match e with
  | RemoteHead _ _ (Err err) => Some (head_message err)
  | CraneDelete _ _ (Some err) => Some (delete_message err)
  | _ => None
  end.

End Shape.

End DeleteResolveRuns.

(** ** The output path of the pull-and-save program *)

Module PullSavePaths.

Import PullSave.

(** The path as the description gives it: [--out], or else
    [downloaded-images/<repo>_<tag>.tar]. *)
Definition described_path (f : Flags) : string :=
  if String.eqb (out f) "" then
    "downloaded-images/" +:+ repo f +:+ "_" +:+ tag f +:+ ".tar"
  else out f.

(** The path as the program builds it: [--out], or else the folder joined
    with [<last element of repo>_<tag>.tar]. *)
Definition output_path (f : Flags) : string :=
  if String.eqb (out f) "" then
    filepath_Join ["downloaded-images"; Base (repo f) +:+ "_" +:+ tag f +:+ ".tar"]
  else out f.

(** The bytes of [s] hold no path separator. *)
Fixpoint no_sep (s : string) : bool :=
  match s with
  | EmptyString => true
  | String c s' => negb (is_sep c) && no_sep s'
  end.

(** The folder has been created, when no [--out] was given. *)
Definition folder_made (f : Flags) (tr : Trace) : bool :=
  if String.eqb (out f) "" then
    existsb (fun e => match e with
                      | MkdirAll "downloaded-images" 493 None => true
                      | _ => false
                      end) tr
  else true.

(** The lines that the standard logger has written. *)
Definition log_lines (tr : Trace) : list string :=
  omap (fun e => match e with LogPrintf s => Some s | _ => None end) tr.

End PullSavePaths.


(** ** More to read from a run *)

Module Calls.

(** The tag lines that [printTags] and the listing loop write: one line
    for each tag, in the order of the list. *)
Definition tag_lines (tags : list string) : Trace :=
  map (fun t => Stdout ("  " +:+ t +:+ LF)) tags.

(** What is written after a tag listing that returned [r]. *)
Definition tags_output (r : result (list string)) : Trace :=
  match r with
  | Ok [] => [Stdout ("  (no tags)" +:+ LF)]
  | Ok tags => tag_lines tags
  | Err _ => []
  end.

(** The error of a call that returns [(T, error)]. *)
Definition error_of {A} (r : result A) : option error :=
  match r with Ok _ => None | Err e => Some e end.

(** The GET requests of a run: URL and timeout. *)
Definition gets (tr : Trace) : list (string * Duration) :=
  omap (fun e => match e with HttpGet u t _ => Some (u, t) | _ => None end) tr.

(** The requests that a run has sent through [client.Do]. *)
Definition requests (tr : Trace) : list Request :=
  omap (fun e => match e with HttpDo req _ _ => Some req | _ => None end) tr.

(** A request that got a response. *)
Definition answered (e : Event) : bool :=
  match e with HttpDo _ _ (Ok _) => true | _ => false end.

(** The pulls of a run: reference and options. *)
Definition pulls (tr : Trace) : list (string * list crane_Option) :=
  omap (fun e => match e with CranePull ref opts _ => Some (ref, opts) | _ => None end) tr.

(** The images that the pulls of a run have returned. *)
Definition pulled (tr : Trace) : list Image :=
  omap (fun e => match e with CranePull _ _ (Ok img) => Some img | _ => None end) tr.

(** The saves of a run: image, reference and path. *)
Definition saves (tr : Trace) : list (Image * string * string) :=
  omap (fun e => match e with
                 | CraneSave img ref path _ => Some (img, ref, path)
                 | _ => None
                 end) tr.

(** The pushes of a run: image, destination and options. *)
Definition pushes (tr : Trace) : list (Image * string * list crane_Option) :=
  omap (fun e => match e with
                 | CranePush img dst opts _ => Some (img, dst, opts)
                 | _ => None
                 end) tr.

(** The folders that a run has asked to create, with their permission
    bits. *)
Definition folders (tr : Trace) : list (string * Z) :=
  omap (fun e => match e with MkdirAll path perm _ => Some (path, perm) | _ => None end) tr.

(** A folder could not be created. *)
Definition folder_failed (e : Event) : bool :=
  match e with MkdirAll _ _ (Some _) => true | _ => false end.

(** The repositories whose tags a run has asked for, in order. *)
Definition listed (tr : Trace) : list Repository :=
  omap (fun e => match e with RemoteList repo _ _ => Some repo | _ => None end) tr.

(** The repository that [<base>/<r>] names, when it parses. *)
Definition parsed (W : World) (base r : string) : option Repository :=
  match name_NewRepository W (base +:+ "/" +:+ r) with
  | Ok nrepo => Some nrepo
  | Err _ => None
  end.

(** The repositories of the catalog that a run has fetched; none when the
    catalog was not fetched. *)
Fixpoint fetched_catalog (W : World) (tr : Trace) : list string :=
  match tr with
  | [] => []
  | HttpGet u t (Ok resp) :: _ =>
      if accepted W (HttpGet u t (Ok resp)) then
        match json_Decode W (Body resp) with
        | Ok c => Repositories c
        | Err _ => []
        end
      else []
  | HttpGet _ _ (Err _) :: _ => []
  | _ :: rest => fetched_catalog W rest
  end.

(** A call of any kind, as against a line of output or of the log. *)
Definition is_call (e : Event) : bool :=
  match e with
  | Stdout _ | LogPrintf _ | LogFatalf _ => false
  | _ => true
  end.

(** The step of the delete/resolve program an event belongs to, with
    whether the step went through: the digest by [remote.Head], a tag
    listing, the delete.  A call of any other kind is kept as a step that
    is no part of the program's order. *)
Definition resolve_step_of (W : World) (e : Event) : option (Step * bool) :=
  match e with
  | RemoteHead _ _ _ => Some (SDigest, accepted W e)
  | RemoteList _ _ _ => Some (STags, accepted W e)
  | CraneDelete _ _ _ => Some (SDelete, accepted W e)
  | HttpGet _ _ _ | HttpDo _ _ _ | CranePull _ _ _ | CraneSave _ _ _ _
  | CranePush _ _ _ _ | MkdirAll _ _ _ | CmdRun _ _ => Some (SGC, false)
  | Stdout _ | LogPrintf _ | LogFatalf _ => None
  end.

Definition resolve_steps (W : World) (tr : Trace) : list (Step * bool) :=
  omap (resolve_step_of W) tr.

(** The calls of the delete/resolve program, in order, with the exit code:
    nothing when the reference does not parse; the digest; then the tags,
    the delete, and after a delete that went through the tags again. *)
Inductive ResolveOrder : list (Step * bool) -> Z -> Prop :=
| RO_not_parsed :
    ResolveOrder [] 1
| RO_not_resolved :
    ResolveOrder [(SDigest, false)] 1
| RO_delete_failed listed :
    ResolveOrder [(SDigest, true); (STags, listed); (SDelete, false)] 1
| RO_deleted listed listed' :
    ResolveOrder [(SDigest, true); (STags, listed); (SDelete, true); (STags, listed')] 0.

End Calls.

Import Calls.

(** ** More sample worlds *)

Module SampleMore.

(** [-delete] without [-repo]. *)
Definition delete_no_repo_flags : Orchestrate.Flags := {|
  Orchestrate.registry := "localhost:5000/";
  Orchestrate.repo := "";
  Orchestrate.tag := "latest";
  Orchestrate.doDelete := true;
  Orchestrate.doGC := true;
  Orchestrate.container := "local-registry";
  Orchestrate.timeoutSec := 10
|}.

(** [--repo golang --out /tmp/golang.tar --insecure=false]. *)
Definition out_flags : PullSave.Flags := {|
  PullSave.registry := "registry.example.com";
  PullSave.repo := "golang";
  PullSave.tag := "1.21-alpine";
  PullSave.out := "/tmp/golang.tar";
  PullSave.insecure := false
|}.

(** A registry with three repositories, whose tag listings all fail. *)
Definition three_repos_list_fails : Sample.Answers := {|
  Sample.on_Get := Sample.on_Get Sample.fine;
  Sample.on_Decode := Ok {| Repositories := ["golang"; "busybox"; "alpine"] |};
  Sample.on_Head := Sample.on_Head Sample.fine;
  Sample.on_List := Sample.on_List Sample.list_fails;
  Sample.on_RemoteHead := Sample.on_RemoteHead Sample.fine;
  Sample.on_Delete := Sample.on_Delete Sample.fine
|}.

End SampleMore.


(** ** What the calls of a run were made with *)

Module Reports.

(** The [remote.Head] calls of a run: reference and options. *)
Definition heads (tr : Trace) : list (Reference * list remote_Option) :=
  omap (fun e => match e with RemoteHead ref opts _ => Some (ref, opts) | _ => None end) tr.

(** The digests that the [remote.Head] calls of a run have returned, each
    with the reference it was asked for; a descriptor without digest gives
    none. *)
Definition resolved (tr : Trace) : list (Reference * Hash) :=
  omap (fun e => match e with
                 | RemoteHead ref _ (Ok desc) =>
                     if String.eqb (Digest desc) "" then None else Some (ref, Digest desc)
                 | _ => None
                 end) tr.

(** What a delete by digest names: the repository of the reference and the
    digest, and no tag. *)
Definition digest_ref (rd : Reference * Hash) : string :=
  Repository_Name (Context (fst rd)) +:+ "@" +:+ Hash_String (snd rd).

(** The repository and the digest of a resolved reference, without its
    tag. *)
Definition untagged (rd : Reference * Hash) : Repository * Hash :=
  (Context (fst rd), snd rd).

(** The requests that a run has sent through [client.Do], each with the
    timeout of its client. *)
Definition timed_requests (tr : Trace) : list (Request * Duration) :=
  omap (fun e => match e with HttpDo req t _ => Some (req, t) | _ => None end) tr.

(** The catalog was fetched: the GET was answered with status 200 and a
    body that decodes. *)
Definition fetched (W : World) (tr : Trace) : bool :=
  existsb (fun e => match e with HttpGet _ _ _ => accepted W e | _ => false end) tr.

(** Every failed tag listing is followed at once by the line [msg n err],
    where [err] is its error and [n] the number of tag listings before
    it. *)
Fixpoint list_errors_reported (msg : nat -> error -> string) (n : nat) (tr : Trace)
  : bool :=
  match tr with
  | [] => true
  | RemoteList _ _ r :: rest =>
      match r, rest with
      | Err err, Stdout s :: _ => String.eqb s (msg n err)
      | Err _, _ => false
      | Ok _, _ => true
      end && list_errors_reported msg (S n) rest
  | _ :: rest => list_errors_reported msg n rest
  end.

(** The events [es] hold every failed tag listing together with its
    line. *)
Definition reports_within (msg : nat -> error -> string) (es : Trace) : Prop :=
  forall n rest, exists n',
    list_errors_reported msg n (es ++ rest) = list_errors_reported msg n' rest.

(** The line after a failed tag listing of the orchestration program. *)
Definition list_failed_line (n : nat) (err : error) : string :=
  "  remote.List failed: " +:+ err +:+ LF.

(** The line after a failed tag listing of the delete/resolve program:
    before the delete, and after it. *)
Definition list_warning_line (n : nat) (err : error) : string :=
  if (n =? 0)%nat
  then "Warning: unable to list tags: " +:+ err +:+ LF
  else "Warning: unable to list tags after delete: " +:+ err +:+ LF.

End Reports.

Import Reports.

(** ** A sample world that tells tags apart *)

Module SampleTags.

(** As [Sample.world], except that a reference string is taken as a tag
    of [localhost:5000/mybusybox]. *)
Definition world (a : Sample.Answers) : World := {|
  strconv_Quote := strconv_Quote (Sample.world a);
  json_Decode := json_Decode (Sample.world a);
  name_NewRepository := name_NewRepository (Sample.world a);
  name_ParseReference := fun s =>
    Ok {| Context := {| RegistryStr := "localhost:5000"; RepositoryStr := "mybusybox" |};
          Identifier := s |};
  http_NewRequest := http_NewRequest (Sample.world a);
  client_Get := client_Get (Sample.world a);
  client_Do := client_Do (Sample.world a);
  remote_List := remote_List (Sample.world a);
  remote_Head := remote_Head (Sample.world a);
  crane_Delete := crane_Delete (Sample.world a);
  crane_Pull := crane_Pull (Sample.world a);
  crane_Save := crane_Save (Sample.world a);
  crane_Push := crane_Push (Sample.world a);
  os_MkdirAll := os_MkdirAll (Sample.world a);
  cmd_Run := cmd_Run (Sample.world a)
|}.

End SampleTags.
(** * Properties *)

Import OrchestrateRuns.

(** ** The library functions on sample inputs *)

Example Contains_sample :
  Contains "DELETE: UNSUPPORTED; op" "UNSUPPORTED" = true /\
  Contains "unexpected status code 404 Not Found" "404" = true /\
  Contains "context deadline exceeded" "MANIFEST_UNKNOWN" = false.
Proof. repeat split; reflexivity. Qed.

Example TrimSuffix_sample :
  TrimSuffix "localhost:5000/" "/" = "localhost:5000" /\
  TrimSuffix "localhost:5000" "/" = "localhost:5000" /\
  TrimSuffix "localhost:5000//" "/" = "localhost:5000/".
Proof. repeat split; reflexivity. Qed.

Example Base_sample :
  Base "library/golang" = "golang" /\ Base "a/b//" = "b" /\ Base "//" = "/" /\
  Base "" = "." /\ Base "golang" = "golang".
Proof. repeat split; reflexivity. Qed.

Example Clean_sample :
  Clean "a//b/./c/../d" = "a/b/d" /\ Clean "../a/../../b" = "../../b" /\
  Clean "/../a" = "/a" /\ Clean "a/.." = "." /\ Clean "/" = "/".
Proof. repeat split; vm_compute; reflexivity. Qed.

Example filepath_Join_sample :
  filepath_Join ["downloaded-images"; "golang_latest.tar"] =
    "downloaded-images/golang_latest.tar" /\
  filepath_Join ["downloaded-images"; "a/../../x.tar"] = "x.tar" /\
  filepath_Join [""; ""] = "".
Proof. repeat split; vm_compute; reflexivity. Qed.

Example Sprintf_sample :
  Sprintf_with id "catalog returned status %d: %s" [AInt 404; AStr "nope"] =
    "catalog returned status 404: nope" /\
  Sprintf_with id "%s/%s@%s" [AStr "localhost:5000"; AStr "golang"; AStr "sha256:ab"] =
    "localhost:5000/golang@sha256:ab".
Proof. split; vm_compute; reflexivity. Qed.

Example fmt_Header_sample :
  fmt_Header (<["B" := ["x"; "y"]]> (<["A" := []]> ∅)) = "map[A:[] B:[x y]]".
Proof. vm_compute. reflexivity. Qed.

Example dmul_sample :
  dmul 10 Second = 10000000000 /\ 10 * Minute = 600000000000 /\
  dmul 9223372037 Second = -9223372036709551616.
Proof. repeat split; reflexivity. Qed.

(** ** The monad *)

#[local] Arguments Sprintf : simpl never.
#[local] Arguments Sprintln : simpl never.
#[local] Arguments delete_message : simpl never.
#[local] Arguments dmul : simpl never.
#[local] Arguments accepted : simpl never.

Ltac unfold_m :=
  unfold log_Fatalf, log_Printf, Printf, Println, bind, call, emit, exit, ret in *.

Lemma forallb_weaken {A} (P Q : A -> bool) (l : list A) :
  (forall x, P x = true -> Q x = true) -> forallb P l = true -> forallb Q l = true.
Proof.
  intros HPQ. induction l as [|x l IH]; cbn; [done|].
  rewrite !andb_true_iff. intros [Hx Hl]. split; auto.
Qed.

(** A loop whose body always returns, returns; what holds of the events of
    every round, and of two runs of events put together when it holds of
    both, holds of the events of the loop. *)
Lemma forM__events {A} (P : Trace -> Prop) (body : A -> M unit) (l : list A) :
  P [] -> (forall a b, P a -> P b -> P (a ++ b)) ->
  (forall x h, exists es, body x h = (es, Done tt) /\ P es) ->
  forall h, exists es, forM_ l body h = (es, Done tt) /\ P es.
Proof.
  intros Hnil Happ Hbody. induction l as [|x l IH]; intros h.
  - exists []. split; [reflexivity | exact Hnil].
  - destruct (Hbody x h) as (es1 & E1 & P1).
    destruct (IH (h ++ es1)) as (es2 & E2 & P2).
    exists (es1 ++ es2). cbn [forM_]. unfold bind. rewrite E1, E2.
    split; [reflexivity | by apply Happ].
Qed.

Lemma quiet_app a b : quiet a -> quiet b -> quiet (a ++ b).
Proof. unfold quiet. intros Ha Hb. by rewrite forallb_app, Ha, Hb. Qed.

Lemma listings_reported_app a b :
  listings_reported a = true -> listings_reported b = true ->
  listings_reported (a ++ b) = true.
Proof.
  intros Ha Hb. induction a as [|e a IH]; [exact Hb|].
  cbn in *. apply andb_true_iff in Ha as [He Ha].
  rewrite (IH Ha), andb_true_r.
  destruct (is_list e); [|reflexivity].
  destruct a as [|[] a]; try discriminate He. reflexivity.
Qed.

Lemma listing_app a b : listing a -> listing b -> listing (a ++ b).
Proof.
  intros [Ha1 Ha2] [Hb1 Hb2]. split.
  - by rewrite forallb_app, Ha1, Hb1.
  - by apply listings_reported_app.
Qed.

Lemma quiet_listing q : quiet q -> listing q.
Proof.
  unfold quiet. intros Hq. split.
  - eapply forallb_weaken; [|exact Hq]. intros e; destruct e; done.
  - induction q as [|e q IH]; [done|]. cbn in *.
    apply andb_true_iff in Hq as [He Hq]. rewrite (IH Hq).
    destruct e; try discriminate He. reflexivity.
Qed.

(** The loop that prints the elements of a list. *)
Lemma forM__print {A} (line : A -> string) (body : A -> M unit) (l : list A) h :
  (forall x h', body x h' = ([Stdout (line x)], Done tt)) ->
  exists es, forM_ l body h = (es, Done tt) /\ quiet es /\
             (l <> [] -> exists s es', es = Stdout s :: es').
Proof.
  intros Hbody. revert h. induction l as [|x l IH]; intros h.
  - exists []. repeat split. done.
  - cbn [forM_]. unfold bind. rewrite Hbody.
    destruct (IH (h ++ [Stdout (line x)])) as (es & -> & Hq & _).
    eexists. split; [reflexivity|]. split; [exact Hq|]. intros _. eauto.
Qed.

(** A loop makes at most as many calls of a kind as its rounds do. *)
Lemma forM__count {A} (P : Event -> bool) (body : A -> M unit) (l : list A) :
  (forall x h, (length (List.filter P (fst (body x h))) <= 1)%nat) ->
  forall h, (length (List.filter P (fst (forM_ l body h))) <= length l)%nat.
Proof.
  intros Hbody. induction l as [|x l IH]; intros h.
  - cbn. lia.
  - cbn [forM_]. unfold bind. specialize (Hbody x h).
    destruct (body x h) as [es1 [[]|c]]; cbn [fst] in *.
    + specialize (IH (h ++ es1)). destruct (forM_ l body (h ++ es1)) as [es2 o].
      cbn [fst length] in *. rewrite List.filter_app, length_app. lia.
    + cbn [length]. lia.
Qed.

(** ** The orchestration program runs as [MainRun] says *)

Lemma listTags_events W base r h :
  exists es, Orchestrate.listTags W base r h = (es, Done tt) /\ listing es.
Proof.
  unfold Orchestrate.listTags. unfold Printf, Println. unfold bind at 1. unfold emit at 1.
  destruct (name_NewRepository W _) as [nrepo|err].
  - unfold bind, call.
    destruct (remote_List W _ _ _) as [[|t tags]|err] eqn:E.
    + eexists. split; [reflexivity|]. by split.
    + cbn [length Nat.eqb].
      match goal with
      | |- context [forM_ ?l ?b ?h] =>
          destruct (forM__print (fun t => Sprintf W ("  %s" +:+ LF) [AStr t]) b l h
                      (fun _ _ => eq_refl))
            as (es & -> & Hq & Hne)
      end.
      destruct Hne as (s & es' & ->); [done|].
      eexists. split; [reflexivity|]. cbn. apply quiet_listing in Hq as [Hq1 Hq2].
      split; cbn; [exact Hq1 | exact Hq2].
    + eexists. split; [reflexivity|]. by split.
  - eexists. split; [reflexivity|]. by split.
Qed.

Lemma printCatalog_events c h :
  exists es, Orchestrate.printCatalog c h = (es, Done tt) /\ forallb is_stdout es = true.
Proof.
  unfold Orchestrate.printCatalog, Println.
  destruct (length (Repositories c) =? 0)%nat.
  - eexists. split; reflexivity.
  - match goal with
    | |- context [forM_ ?l ?b ?h] =>
        destruct (forM__print (fun r => Sprintln [AStr " -"; AStr r]) b l h
                    (fun _ _ => eq_refl))
          as (es & -> & Hq & _)
    end. eauto.
Qed.

Lemma quiet_no_list es :
  quiet es -> List.filter is_list es = [].
Proof.
  unfold quiet. induction es as [|e es IH]; [done|].
  cbn. rewrite andb_true_iff. intros [He Hes].
  destruct e; try discriminate He. cbn. auto.
Qed.

Lemma listTags_count W base r h :
  (length (List.filter is_list (fst (Orchestrate.listTags W base r h))) <= 1)%nat.
Proof.
  unfold Orchestrate.listTags. unfold Printf, Println. unfold bind at 1. unfold emit at 1.
  destruct (name_NewRepository W _) as [nrepo|err]; [|cbn; lia].
  unfold bind, call.
  destruct (remote_List W _ _ _) as [tags|err] eqn:E; [|cbn; lia].
  destruct (length tags =? 0)%nat; [cbn; lia|].
  match goal with
  | |- context [forM_ ?l ?b ?h] =>
      destruct (forM__print (fun t => Sprintf W ("  %s" +:+ LF) [AStr t]) b l h
                  (fun _ _ => eq_refl))
        as (es & -> & Hq & _)
  end.
  cbn [fst app List.filter is_list].
  rewrite (quiet_no_list es Hq). cbn. lia.
Qed.

Lemma header_digest_empty resp :
  String.eqb (header_digest resp) "" =
  String.eqb (Header_Get (RespHeader resp) "Docker-Content-Digest") "" &&
  String.eqb (Header_Get (RespHeader resp) "Content-Digest") "".
Proof.
  unfold header_digest.
  destruct (String.eqb (Header_Get (RespHeader resp) "Docker-Content-Digest") "") eqn:E;
    cbn; [reflexivity | exact E].
Qed.

Lemma accepted_head W req t resp :
  accepted W (HttpDo req t (Ok resp)) =
  negb (400 <=? StatusCode resp) && negb (String.eqb (header_digest resp) "").
Proof.
  unfold accepted. cbn. rewrite header_digest_empty, negb_orb. reflexivity.
Qed.

Lemma accepted_head_failed W req t e : accepted W (HttpDo req t (Err e)) = false.
Proof. reflexivity. Qed.

Lemma deleteSteps_run W f h :
  DeleteRun W f (fst (Orchestrate.deleteSteps W f (base f) (timeout f) h))
                (snd (Orchestrate.deleteSteps W f (base f) (timeout f) h)).
Proof.
  unfold Orchestrate.deleteSteps.
  destruct (String.eqb (Orchestrate.repo f) "") eqn:Hrepo.
  { apply String.eqb_eq in Hrepo. unfold_m. cbn. by apply DR_no_repo. }
  apply String.eqb_neq in Hrepo.
  unfold Orchestrate.resolveDigestHTTP, Orchestrate.runGarbageCollect. unfold_m.
  destruct (http_NewRequest W _ _) as [e|] eqn:Hreq.
  { cbn. by eapply (DR_bad_request W f [_]). }
  destruct (client_Do W _ _ _) as [resp|e] eqn:Hdo; cycle 1.
  { cbn. by eapply (DR_head_failed W f [_]). }
  destruct (400 <=? StatusCode resp) eqn:Hstatus.
  { cbn. eapply (DR_head_failed W f [_]); try done. unfold accepted; cbn. by rewrite Hstatus. }
  fold (header_digest resp).
  destruct (String.eqb (header_digest resp) "") eqn:Hdig.
  { cbn. eapply (DR_head_failed W f [_]); try done.
    rewrite accepted_head, Hstatus, Hdig. reflexivity. }
  assert (Hacc : accepted W (HttpDo (head_request W f) (timeout f) (Ok resp)) = true).
  { rewrite accepted_head, Hstatus, Hdig. reflexivity. }
  destruct (crane_Delete W _ _ _) as [e|] eqn:Hdel.
  { pose proof (eq_refl (delete_message W e)) as Hm.
    unfold delete_message in Hm at 2.
    destruct (Contains e "UNSUPPORTED"); [|destruct (Contains e "DIGEST_INVALID")];
      cbn; rewrite <- Hm;
      by eapply (DR_delete_failed W f [_] resp [_; _; _] e). }
  destruct (Orchestrate.doGC f) eqn:Hgc; cycle 1.
  { cbn. by eapply (DR_deleted W f [_] resp [_; _; _] [_; _]). }
  destruct (cmd_Run W _ _) as [e|] eqn:Hrun.
  - cbn. by eapply (DR_gc_failed W f [_] resp [_; _; _] [_; _; _] e).
  - cbn. by eapply (DR_gc_done W f [_] resp [_; _; _] [_; _; _] [_; _]).
Qed.

Lemma fetchCatalog_run W reg t h :
  exists g,
    fst (Orchestrate.fetchCatalog W reg t h) =
      [HttpGet (Sprintf W "http://%s/v2/_catalog" [AStr reg]) t g] /\
    match snd (Orchestrate.fetchCatalog W reg t h) with
    | Done (Ok c) =>
        exists resp, g = Ok resp /\ json_Decode W (Body resp) = Ok c /\
          accepted W (HttpGet (Sprintf W "http://%s/v2/_catalog" [AStr reg]) t g) = true
    | Done (Err _) =>
        accepted W (HttpGet (Sprintf W "http://%s/v2/_catalog" [AStr reg]) t g) = false
    | Exited _ => False
    end.
Proof.
  unfold Orchestrate.fetchCatalog. unfold_m.
  destruct (client_Get W _ _ _) as [resp|e] eqn:Hget; cycle 1.
  { eexists. split; reflexivity. }
  unfold accepted. cbn [failed rejected is_err orb].
  destruct (StatusCode resp =? StatusOK) eqn:Hs; cbn [negb].
  - destruct (json_Decode W (Body resp)) as [c|e] eqn:Hdec.
    + eexists. split; [reflexivity|]. cbn [snd]. exists resp.
      rewrite Hs, Hdec. done.
    + eexists. split; [reflexivity|]. cbn [snd]. rewrite Hs, Hdec. reflexivity.
  - eexists. split; [reflexivity|]. cbn [snd]. rewrite Hs. reflexivity.
Qed.

Lemma main_run W f tr code :
  run (Orchestrate.main W f) = (tr, code) -> MainRun W f tr code.
Proof.
  unfold run, Orchestrate.main. fold (base f). fold (timeout f). unfold_m.
  intros H.
  match type of H with
  | context [Orchestrate.fetchCatalog W ?a ?b ?h] =>
      destruct (fetchCatalog_run W a b h) as (g & Hev & Hres);
      destruct (Orchestrate.fetchCatalog W a b h) as [es0 [[c|e]|code']]
  end; cbn [fst snd] in *; [| |done]; subst es0.
  2:{ cbn in H. injection H as <- <-. by eapply (MR_catalog_failed W f [_; _]). }
  destruct Hres as (resp & -> & Hdec & Hacc).
  match type of H with
  | context [Orchestrate.printCatalog ?c ?h] =>
      destruct (printCatalog_events c h) as (es1 & Hq & Hes1);
      rewrite Hq in H; clear Hq
  end.
  match type of H with
  | context [forM_ ?l (Orchestrate.listTags W ?b) ?h] =>
      pose proof (forM__count is_list (Orchestrate.listTags W b) l
                    (listTags_count W b) h) as Hcount;
      destruct (forM__events listing (Orchestrate.listTags W b) l
                  (quiet_listing [] eq_refl) listing_app
                  (listTags_events W b) h) as (es2 & Hl & Hes2);
      rewrite Hl in H, Hcount; clear Hl
  end.
  cbn [fst] in Hcount.
  assert (Hlist : listing (es1 ++ Stdout (Sprintln [AStr (LF +:+ "==> 2. Listing tags for each repository using remote.List()")]) :: es2)).
  { apply listing_app; [by apply quiet_listing|].
    by apply (listing_app [_]); [apply quiet_listing|]. }
  assert (Hn : (length (List.filter is_list (es1 ++ Stdout (Sprintln [AStr (LF +:+ "==> 2. Listing tags for each repository using remote.List()")]) :: es2)) <= length (Repositories c))%nat).
  { rewrite List.filter_app, (quiet_no_list es1 Hes1); exact Hcount. }
  destruct (Orchestrate.doDelete f) eqn:Hdel; cbn [negb] in H.
  - match type of H with
    | context [Orchestrate.deleteSteps W f ?b ?t ?h] =>
        pose proof (deleteSteps_run W f h) as Hrun;
        destruct (Orchestrate.deleteSteps W f b t h) as [es3 o3]
    end.
    cbn [fst snd] in Hrun; cbn [app] in H;
    replace tr with (([Stdout (Sprintf W ("Registry: %s" +:+ LF) [AStr (base f)]);
                       Stdout (Sprintln [AStr (LF +:+ "==> 1. Listing catalog via HTTP GET /v2/_catalog")])])
                     ++ HttpGet (catalog_url W f) (timeout f) (Ok resp)
                     :: (es1 ++ Stdout (Sprintln [AStr (LF +:+ "==> 2. Listing tags for each repository using remote.List()")]) :: es2) ++ es3)
      by (destruct o3; injection H as <- <-; cbn; rewrite <- !app_assoc; reflexivity);
    replace code with (match o3 with Done _ => 0 | Exited code => code end)
      by (destruct o3; injection H as <- <-; reflexivity);
    by eapply MR_delete.
  - cbn [app] in H; injection H as <- <-;
    replace (_ :: _) with (([Stdout (Sprintf W ("Registry: %s" +:+ LF) [AStr (base f)]);
                       Stdout (Sprintln [AStr (LF +:+ "==> 1. Listing catalog via HTTP GET /v2/_catalog")])])
                     ++ HttpGet (catalog_url W f) (timeout f) (Ok resp)
                     :: (es1 ++ Stdout (Sprintln [AStr (LF +:+ "==> 2. Listing tags for each repository using remote.List()")]) :: es2) ++ [Stdout (Sprintln [AStr (LF +:+ "Done (no delete requested).")])])
      by (cbn; rewrite <- !app_assoc; reflexivity);
    by eapply MR_listed.
Qed.

(** ** The delete/resolve program runs as its [MainRun] says *)

Lemma printTags_run W ref h :
  exists s r q,
    DeleteResolve.printTags W ref h =
      (Stdout s :: RemoteList (Context ref) [] r :: q,
       Done (match r with Err e => Some e | Ok _ => None end)) /\
    quiet q /\ (is_err r = false -> exists s' q', q = Stdout s' :: q') /\
    (is_err r = true -> q = []).
Proof.
  unfold DeleteResolve.printTags. unfold Printf, Println. unfold bind at 1. unfold emit at 1.
  unfold bind at 1. unfold call.
  destruct (remote_List W _ _ _) as [[|t tags]|err] eqn:E.
  - unfold bind, emit, ret. cbn. eexists _, (Ok []), _. split; [reflexivity|].
    split; [done|]. split; [eauto | done].
  - cbn [length Nat.eqb]. unfold bind at 1.
    match goal with
    | |- context [forM_ ?l ?b ?h] =>
        destruct (forM__print (fun t => Sprintf W ("  %s" +:+ LF) [AStr t]) b l h
                    (fun _ _ => eq_refl))
          as (es & -> & Hq & Hne)
    end.
    destruct Hne as (s & es' & ->); [done|].
    unfold ret. cbn. rewrite app_nil_r.
    eexists _, (Ok (t :: tags)), _. split; [reflexivity|].
    split; [exact Hq|]. split; [eauto | done].
  - unfold ret. cbn. eexists _, (Err err), _. split; [reflexivity|].
    split; [done|]. split; done.
Qed.

(** A tag listing and the warning that follows a failed one. *)
Lemma printTags_listing s repo r q w :
  quiet q -> (is_err r = false -> exists s' q', q = Stdout s' :: q') ->
  (is_err r = true -> q = []) ->
  listing (Stdout s :: RemoteList repo [] r :: q ++
           match r with Err e => [Stdout (w e)] | Ok _ => [] end).
Proof.
  intros Hq Hok Herr. destruct r as [tags|e]; cbn in *.
  - destruct Hok as (s' & q' & ->); [done|]. rewrite app_nil_r.
    apply quiet_listing in Hq as [Hq1 Hq2]. split; cbn; [exact Hq1 | exact Hq2].
  - rewrite Herr by done. by split.
Qed.

Lemma delete_resolve_run W refStr tr code :
  run (DeleteResolve.main W refStr) = (tr, code) ->
  DeleteResolveRuns.MainRun W refStr tr code.
Proof.
  unfold run, DeleteResolve.main.
  destruct (name_ParseReference W refStr) as [ref|e] eqn:Hparse.
  2:{ unfold_m. cbn. intros [= <- <-]. by eapply DeleteResolveRuns.MR_parse_failed. }
  unfold bind at 1. unfold call at 1.
  destruct (remote_Head W _ _ _) as [desc|e] eqn:Hhead.
  2:{ pose proof (eq_refl (DeleteResolveRuns.head_message W refStr e)) as Hm.
      unfold DeleteResolveRuns.head_message in Hm at 2.
      destruct (Contains e "MANIFEST_UNKNOWN" || Contains e "404");
        unfold_m; cbn; rewrite <- Hm; intros [= <- <-];
        by eapply DeleteResolveRuns.MR_head_failed. }
  destruct (String.eqb (Digest desc) "") eqn:Hdig.
  { apply String.eqb_eq in Hdig. unfold_m. cbn. intros [= <- <-].
    by eapply DeleteResolveRuns.MR_no_digest. }
  apply String.eqb_neq in Hdig.
  unfold Printf at 1. unfold bind at 1. unfold emit at 1.
  unfold bind at 1.
  match goal with
  | |- context [DeleteResolve.printTags W ?r ?h] =>
      destruct (printTags_run W r h) as (s1 & r1 & q1 & -> & Hq1 & Hok1 & Herr1)
  end.
  pose proof (printTags_listing s1 (Context ref) r1 q1
                (fun e => Sprintf W ("Warning: unable to list tags: %v" +:+ LF) [AErr e])
                Hq1 Hok1 Herr1) as Hl1.
  set (l1 := Stdout (Sprintf W ("Resolved digest: %s" +:+ LF) [AStr (Hash_String (Digest desc))])
             :: Stdout s1 :: RemoteList (Context ref) [] r1 :: q1 ++
             match r1 with
             | Ok _ => []
             | Err e => [Stdout (Sprintf W ("Warning: unable to list tags: %v" +:+ LF) [AErr e])]
             end ++
             [Stdout (Sprintf W ("Deleting manifest: %s" +:+ LF)
                        [AStr (DeleteResolveRuns.delete_ref W ref (Digest desc))])]).
  assert (Hl : listing l1).
  { subst l1. apply (listing_app [_]); [by split|].
    rewrite !app_comm_cons, app_assoc. apply listing_app; [exact Hl1 | by split]. }
  unfold bind at 1.
  assert (Hwarn : forall h,
    (match match r1 with Ok _ => None | Err e => Some e end with
     | Some err => Printf W ("Warning: unable to list tags: %v" +:+ LF) [AErr err]
     | None => ret ()
     end) h =
    (match r1 with
     | Ok _ => []
     | Err e => [Stdout (Sprintf W ("Warning: unable to list tags: %v" +:+ LF) [AErr e])]
     end, Done tt)) by (intros; destruct r1; reflexivity).
  rewrite Hwarn. clear Hwarn.
  unfold Printf at 1. unfold bind at 1. unfold emit at 1.
  unfold bind at 1. unfold call at 1.
  fold (DeleteResolveRuns.delete_ref W ref (Digest desc)).
  destruct (crane_Delete W _ _ _) as [e|] eqn:Hdel.
  { pose proof (eq_refl (DeleteResolveRuns.delete_message W e)) as Hm.
    unfold DeleteResolveRuns.delete_message in Hm at 2.
    destruct (Contains e "UNSUPPORTED"); unfold_m; cbn; rewrite <- Hm; intros [= <- <-].
    all: replace (_ :: _) with
        (RemoteHead ref DeleteResolveRuns.head_opts (Ok desc) :: l1 ++
         [CraneDelete (DeleteResolveRuns.delete_ref W ref (Digest desc)) [crane_Insecure] (Some e);
          LogFatalf (DeleteResolveRuns.delete_message W e)])
        by (subst l1; cbn; rewrite <- !app_assoc; reflexivity).
    all: by eapply DeleteResolveRuns.MR_delete_failed. }
  unfold Println at 1. unfold bind at 1. unfold emit at 1. unfold bind at 1.
  match goal with
  | |- context [DeleteResolve.printTags W ?r ?h] =>
      destruct (printTags_run W r h) as (s2 & r2 & q2 & -> & Hq2 & Hok2 & Herr2)
  end.
  pose proof (printTags_listing s2 (Context ref) r2 q2
                (fun e => Sprintf W ("Warning: unable to list tags after delete: %v" +:+ LF) [AErr e])
                Hq2 Hok2 Herr2) as Hl2.
  assert (Hwarn : forall h,
    (match match r2 with Ok _ => None | Err e => Some e end with
     | Some err => Printf W ("Warning: unable to list tags after delete: %v" +:+ LF) [AErr err]
     | None => ret ()
     end) h =
    (match r2 with
     | Ok _ => []
     | Err e => [Stdout (Sprintf W ("Warning: unable to list tags after delete: %v" +:+ LF) [AErr e])]
     end, Done tt)) by (intros; destruct r2; reflexivity).
  rewrite Hwarn. clear Hwarn.
  cbn. intros [= <- <-].
  replace (_ :: _) with
    (RemoteHead ref DeleteResolveRuns.head_opts (Ok desc) :: l1 ++
     CraneDelete (DeleteResolveRuns.delete_ref W ref (Digest desc)) [crane_Insecure] None ::
     (Stdout (Sprintln [AStr "Delete request sent successfully."]) ::
      Stdout s2 :: RemoteList (Context ref) [] r2 :: q2 ++
      match r2 with
      | Ok _ => []
      | Err e => [Stdout (Sprintf W ("Warning: unable to list tags after delete: %v" +:+ LF) [AErr e])]
      end))
    by (subst l1; cbn; rewrite <- !app_assoc; reflexivity).
  by eapply DeleteResolveRuns.MR_deleted.
Qed.

(** ** Reading the events of a run piece by piece *)

Lemma followed_app_clean P a b :
  (forall e rest, In e a -> P e rest = true) ->
  followed P (a ++ b) = followed P b.
Proof.
  intros Ha. induction a as [|e a IH]; [reflexivity|].
  cbn. rewrite Ha by (left; reflexivity).
  apply IH. intros e' rest Hin. apply Ha. by right.
Qed.

Lemma listing_tag_event l e : listing l -> In e l -> tag_event e = true.
Proof. intros [Hl _] Hin. rewrite forallb_forall in Hl. by apply Hl. Qed.

Lemma tag_event_recoverable W e : tag_event e = true -> unrecoverable W e = false.
Proof. destruct e; try discriminate; intros _; unfold unrecoverable; cbn; by rewrite ?andb_false_r. Qed.

Lemma errors_terminate_listing W l b :
  listing l ->
  errors_terminate (unrecoverable W) (l ++ b) = errors_terminate (unrecoverable W) b.
Proof.
  intros Hl. apply followed_app_clean. intros e rest Hin.
  by rewrite (tag_event_recoverable W e (listing_tag_event l e Hl Hin)).
Qed.

Lemma fatal_with_listing msg l b :
  (forall e, tag_event e = true -> msg e = None) ->
  listing l -> fatal_with msg (l ++ b) = fatal_with msg b.
Proof.
  intros Hmsg Hl. apply followed_app_clean. intros e rest Hin.
  by rewrite (Hmsg e (listing_tag_event l e Hl Hin)).
Qed.

Lemma existsb_listing W l :
  listing l -> existsb (unrecoverable W) l = false.
Proof.
  intros Hl. apply not_true_is_false. intros Hex.
  apply existsb_exists in Hex as (e & Hin & He).
  by rewrite (tag_event_recoverable W e (listing_tag_event l e Hl Hin)) in He.
Qed.

Lemma existsb_fatal_listing l : listing l -> existsb is_fatal l = false.
Proof.
  intros Hl. apply not_true_is_false. intros Hex.
  apply existsb_exists in Hex as (e & Hin & He).
  pose proof (listing_tag_event l e Hl Hin). by destruct e.
Qed.

Lemma steps_app W a b : steps W (a ++ b) = steps W a ++ steps W b.
Proof. apply omap_app. Qed.

Lemma steps_listing W l :
  listing l ->
  exists oks, steps W l = map (pair STags) oks /\
              length oks = length (List.filter is_list l).
Proof.
  intros [Hl _]. induction l as [|e l IH]; cbn in Hl.
  - exists []. done.
  - apply andb_true_iff in Hl as [He Hl]. destruct (IH Hl) as (oks & Hoks & Hlen).
    unfold steps in *. destruct e; try discriminate He; cbn; rewrite Hoks.
    + exists oks. done.
    + eexists (_ :: oks). cbn. by rewrite Hlen.
Qed.

Lemma steps_quiet W q : quiet q -> steps W q = [].
Proof.
  intros Hq. destruct (steps_listing W q (quiet_listing q Hq)) as (oks & -> & Hlen).
  rewrite (quiet_no_list q Hq) in Hlen. by destruct oks.
Qed.

Lemma commands_app a b : commands (a ++ b) = commands a ++ commands b.
Proof. apply omap_app. Qed.

Lemma commands_listing l : listing l -> commands l = [].
Proof.
  intros [Hl _]. induction l as [|e l IH]; [done|]. cbn in Hl.
  apply andb_true_iff in Hl as [He Hl]. unfold commands in *.
  destruct e; try discriminate He; cbn; auto.
Qed.

Lemma ends_fatal_app a e b : ends_fatal (a ++ e :: b) = ends_fatal (e :: b).
Proof.
  unfold ends_fatal. rewrite last_app.
  destruct (last (e :: b)) eqn:E; [done|]. by apply last_None in E.
Qed.

Lemma ends_fatal_listing l e : listing (l ++ [e]) -> ends_fatal (l ++ [e]) = false.
Proof.
  intros Hl. unfold ends_fatal. rewrite last_snoc.
  pose proof (listing_tag_event _ e Hl) as He.
  rewrite in_app_iff in He. specialize (He (or_intror (or_introl eq_refl))). by destruct e.
Qed.

Lemma accepted_recoverable W e : accepted W e = true -> unrecoverable W e = false.
Proof.
  unfold accepted, unrecoverable. intros H%negb_true_iff. by rewrite H.
Qed.

Lemma commands_cons e l :
  commands (e :: l) =
  match e with CmdRun args _ => [args] | _ => [] end ++ commands l.
Proof. by destruct e. Qed.

(** Every run of the orchestration program, by the cases of [MainRun];
    the segments of output are kept as listings. *)
Ltac orchestrate_runs W f :=
  let tr := fresh "tr" in let code := fresh "code" in
  let Hrun := fresh "Hrun" in
  destruct (run (Orchestrate.main W f)) as [tr code] eqn:Hrun;
  apply main_run in Hrun; cbn [fst snd];
  destruct Hrun as [q g m Hq Hacc
                   |q resp c l q' Hq Hl Hq' Hacc Hdec Hcount Hdelete
                   |q resp c l es o Hq Hl Hacc Hdec Hcount Hdelete Hsteps];
  [ | | destruct Hsteps ];
  repeat match goal with
         | H : quiet ?q |- _ =>
             lazymatch goal with
             | _ : listing q |- _ => fail
             | _ => pose proof (quiet_listing q H)
             end
         end.

(** The garbage collection runs one fixed command line, whatever
    [-container] names. *)
Lemma gc_command_fixed W f :
  commands (fst (run (Orchestrate.main W f))) = [] \/
  commands (fst (run (Orchestrate.main W f))) = [gc_args].
Proof.
  orchestrate_runs W f;
    repeat first [ rewrite commands_app
                 | rewrite commands_listing by assumption
                 | rewrite commands_cons ];
    cbn; auto.
Qed.

(** ** The order of the steps *)

Lemma steps_cons W e l :
  steps W (e :: l) =
  match step_of W e with Some s => [s] | None => [] end ++ steps W l.
Proof. unfold steps. cbn. by destruct (step_of W e). Qed.

Lemma filter_is_list_listing_free l :
  forallb (fun e => negb (is_list e)) l = true -> List.filter is_list l = [].
Proof.
  induction l as [|e l IH]; [done|]. cbn.
  intros [He Hl]%andb_true_iff. apply negb_true_iff in He. rewrite He. auto.
Qed.

Lemma catalog_size_listing W l b :
  listing l -> catalog_size W (l ++ b) = catalog_size W b.
Proof.
  intros [Hl _]. induction l as [|e l IH]; [done|]. cbn in Hl.
  apply andb_true_iff in Hl as [He Hl]. destruct e; try discriminate He; cbn; auto.
Qed.

Lemma accepted_call_failed W e : failed e = true -> accepted W e = false.
Proof. unfold accepted. by intros ->. Qed.

Ltac steps_norm :=
  repeat first [ rewrite steps_app | rewrite steps_cons ];
  repeat match goal with
         | H : quiet ?q |- context [steps _ ?q] => rewrite (steps_quiet _ q H)
         end;
  cbn [step_of app steps omap];
  repeat match goal with
         | H : accepted _ _ = _ |- _ => rewrite H
         end;
  rewrite ?app_nil_r.

Lemma steps_in_order W f :
  InOrder f (steps W (fst (run (Orchestrate.main W f)))) (snd (run (Orchestrate.main W f))).
Proof.
  orchestrate_runs W f; steps_norm;
    try match goal with
        | Hl : listing ?l |- context [steps W ?l] =>
            let oks := fresh "oks" in
            destruct (steps_listing W l Hl) as (oks & -> & _)
        end.
  - apply IO_catalog_failed.
  - by apply IO_listed.
  - by apply IO_not_resolved.
  - by apply IO_not_resolved.
  - by apply IO_digest_failed.
  - by apply IO_delete_failed.
  - by apply IO_deleted.
  - by apply (IO_collected f oks false).
  - by apply (IO_collected f oks true).
Qed.

Lemma listings_bounded W f :
  (length (List.filter is_list (fst (run (Orchestrate.main W f)))) <=
   catalog_size W (fst (run (Orchestrate.main W f))))%nat.
Proof.
  orchestrate_runs W f;
    rewrite (catalog_size_listing W q) by assumption;
    cbn [catalog_size]; rewrite ?Hdec;
    repeat (progress
      (repeat first [ rewrite List.filter_app | rewrite app_nil_r ];
       repeat match goal with
              | H : quiet ?q |- context [List.filter is_list ?q] =>
                  rewrite (quiet_no_list q H)
              end;
       cbn [List.filter is_list app length]));
    lia.
Qed.

(** ** How runs end, and what follows an error *)

Lemma errors_terminate_cons bad e r :
  errors_terminate bad (e :: r) =
  (if bad e then then_fatal r else true) && errors_terminate bad r.
Proof. reflexivity. Qed.

Lemma fatal_with_cons msg e r :
  fatal_with msg (e :: r) =
  match msg e, r with
  | Some m, [LogFatalf m'] => String.eqb m m'
  | Some _, _ => false
  | None, _ => true
  end && fatal_with msg r.
Proof. reflexivity. Qed.

Lemma listings_reported_cons e r :
  listings_reported (e :: r) =
  (if is_list e then match r with Stdout _ :: _ => true | _ => false end else true)
  && listings_reported r.
Proof. reflexivity. Qed.

Lemma listings_reported_listing l b :
  listing l -> listings_reported (l ++ b) = listings_reported b.
Proof.
  intros [_ Hl]. induction l as [|e l IH]; [reflexivity|].
  rewrite listings_reported_cons in Hl. apply andb_true_iff in Hl as [He Hl].
  cbn [app]. rewrite listings_reported_cons, (IH Hl).
  destruct (is_list e); [|reflexivity].
  destruct l as [|[] l]; try discriminate He. reflexivity.
Qed.

Lemma existsb_listing_app W l b :
  listing l ->
  existsb (unrecoverable W) (l ++ b) = existsb (unrecoverable W) b.
Proof. intros Hl. by rewrite existsb_app, existsb_listing. Qed.

Lemma existsb_fatal_listing_app l b :
  listing l -> existsb is_fatal (l ++ b) = existsb is_fatal b.
Proof. intros Hl. by rewrite existsb_app, existsb_fatal_listing. Qed.

Lemma rejected_unrecoverable W e :
  accepted W e = false -> is_list e = false -> unrecoverable W e = true.
Proof.
  unfold accepted, unrecoverable. intros H%negb_false_iff ->. by rewrite H.
Qed.

Lemma ends_fatal_false tr : existsb is_fatal tr = false -> ends_fatal tr = false.
Proof.
  intros Hno. unfold ends_fatal. destruct (last tr) as [e|] eqn:Hlast; [|done].
  apply last_Some in Hlast as (l & ->).
  rewrite existsb_app in Hno. apply orb_false_iff in Hno as [_ Hno].
  cbn in Hno. by destruct e.
Qed.

(** The checks of a run, piece by piece: listings are passed over, the
    calls are looked at one by one. *)
Ltac checks_norm W :=
  repeat (progress
    (repeat first
       [ rewrite errors_terminate_listing by assumption
       | rewrite listings_reported_listing by assumption
       | rewrite existsb_listing_app by assumption
       | rewrite existsb_fatal_listing_app by assumption
       | rewrite errors_terminate_cons
       | rewrite listings_reported_cons ];
     cbn [existsb is_fatal is_list app then_fatal];
     repeat match goal with
            | H : accepted W ?e = true |- context [unrecoverable W ?e] =>
                rewrite (accepted_recoverable W e H)
            | H : accepted W ?e = false |- context [unrecoverable W ?e] =>
                rewrite (rejected_unrecoverable W e H eq_refl)
            | H : listing ?q |- context [existsb (unrecoverable W) ?q] =>
                rewrite (existsb_listing W q H)
            | H : listing ?q |- context [existsb is_fatal ?q] =>
                rewrite (existsb_fatal_listing q H)
            | H : listing ?q |- context [listings_reported ?q] =>
                rewrite (proj2 H)
            | H : listing ?q |- context [errors_terminate (unrecoverable W) ?q] =>
                rewrite <- (app_nil_r q), (errors_terminate_listing W q [] H)
            end;
     cbn [unrecoverable failed rejected is_err not_nil is_list negb orb andb
          errors_terminate listings_reported followed])).

(** Whether the run ends in a fatal log line. *)
Ltac ends_norm W :=
  first [ rewrite ends_fatal_false by (checks_norm W; reflexivity)
        | unfold ends_fatal; repeat first [rewrite last_app | rewrite last_cons];
          cbn [last] ].

Lemma orchestrate_exits W f :
  exits_as W (refused W f) (run (Orchestrate.main W f)).
Proof.
  unfold exits_as, refused.
  orchestrate_runs W f; ends_norm W; checks_norm W;
    repeat match goal with
           | H : Orchestrate.doDelete f = _ |- _ => rewrite H
           | H : Orchestrate.repo f = _ |- _ => rewrite H
           | H : Orchestrate.repo f <> _ |- _ => rewrite (proj2 (String.eqb_neq _ _) H)
           | H : http_NewRequest W _ _ = _ |- _ => rewrite H
           end;
    cbn; rewrite ?orb_true_r; auto.
Qed.

Lemma orchestrate_errors W f :
  errors_end_run W (run (Orchestrate.main W f)).
Proof.
  unfold errors_end_run.
  orchestrate_runs W f; checks_norm W; cbn; auto.
Qed.

Lemma site_message_tag_event W e :
  tag_event e = true -> OrchestrateRuns.site_message W e = None.
Proof. by destruct e. Qed.

Lemma forallb_listing P l b :
  (forall e, tag_event e = true -> P e = true) ->
  listing l -> forallb P (l ++ b) = forallb P b.
Proof.
  intros HP Hl. rewrite forallb_app.
  replace (forallb P l) with true; [reflexivity|].
  symmetry. apply forallb_forall. intros e Hin.
  apply HP. by apply (listing_tag_event l).
Qed.

Lemma head_timeout_tag_event f e :
  tag_event e = true -> head_timeout f e = true.
Proof. by destruct e. Qed.

(** After a failed delete the orchestration program ends with the fatal
    line that the text of the error selects. *)
Lemma fatal_with_listing_only msg l :
  (forall e, tag_event e = true -> msg e = None) ->
  listing l -> fatal_with msg l = true.
Proof.
  intros Hmsg Hl. rewrite <- (app_nil_r l). by rewrite fatal_with_listing.
Qed.

Lemma orchestrate_fatal_lines W f :
  fatal_with (OrchestrateRuns.site_message W) (fst (run (Orchestrate.main W f))) = true.
Proof.
  orchestrate_runs W f;
    repeat first
      [ rewrite (fatal_with_listing _ _ _ (site_message_tag_event W)) by assumption
      | rewrite fatal_with_cons ];
    cbn [OrchestrateRuns.site_message andb];
    rewrite ?String.eqb_refl;
    rewrite ?(fatal_with_listing_only _ _ (site_message_tag_event W)) by assumption;
    reflexivity.
Qed.

(** Every HEAD request of the orchestration program carries the timeout
    of the [-timeout] flag. *)
Lemma orchestrate_head_timeout W f :
  forallb (head_timeout f) (fst (run (Orchestrate.main W f))) = true.
Proof.
  orchestrate_runs W f;
    repeat (progress
      (rewrite ?(forallb_listing _ _ _ (head_timeout_tag_event f)) by assumption;
       cbn [forallb head_timeout andb]; rewrite ?Z.eqb_refl));
    try reflexivity.
  all: match goal with
       | H : listing ?q |- forallb _ ?q = true =>
           apply forallb_forall; intros e Hin; apply head_timeout_tag_event;
           exact (listing_tag_event q e H Hin)
       end.
Qed.

(** Every run of the delete/resolve program, by the cases of its
    [MainRun]. *)
Ltac delete_resolve_runs W refStr :=
  let tr := fresh "tr" in let code := fresh "code" in
  let Hrun := fresh "Hrun" in
  destruct (run (DeleteResolve.main W refStr)) as [tr code] eqn:Hrun;
  apply delete_resolve_run in Hrun; cbn [fst snd];
  destruct Hrun as [e m Hparse
                   |ref e Hparse
                   |ref desc m Hparse Hdig
                   |ref desc l e Hparse Hdig Hl
                   |ref desc l l' Hparse Hdig Hl Hl'];
  try rewrite Hparse;
  try (rewrite (proj2 (String.eqb_neq _ _) Hdig) in * );
  try (rewrite Hdig in * ).

Lemma unrecoverable_remote_head W ref opts desc :
  unrecoverable W (RemoteHead ref opts (Ok desc)) = String.eqb (Digest desc) "".
Proof. unfold unrecoverable. cbn. by rewrite andb_true_r. Qed.

Lemma delete_resolve_exits W refStr :
  exits_as W (is_err (name_ParseReference W refStr)) (run (DeleteResolve.main W refStr)).
Proof.
  unfold exits_as.
  delete_resolve_runs W refStr; ends_norm W; checks_norm W;
    rewrite ?unrecoverable_remote_head, ?Hdig, ?(proj2 (String.eqb_neq _ _) Hdig);
    cbn; auto.
Qed.

Lemma delete_resolve_errors W refStr :
  errors_end_run W (run (DeleteResolve.main W refStr)).
Proof.
  unfold errors_end_run.
  delete_resolve_runs W refStr;
    rewrite ?errors_terminate_cons, ?unrecoverable_remote_head,
      ?Hdig, ?(proj2 (String.eqb_neq _ _) Hdig);
    cbn [existsb]; rewrite ?unrecoverable_remote_head,
      ?Hdig, ?(proj2 (String.eqb_neq _ _) Hdig);
    checks_norm W; cbn; auto.
Qed.

Lemma dr_site_message_tag_event W refStr e :
  tag_event e = true -> DeleteResolveRuns.site_message W refStr e = None.
Proof. by destruct e. Qed.

(** After a failed [remote.Head] or [crane.Delete] the delete/resolve
    program ends with the fatal line that the text of the error selects. *)
Lemma delete_resolve_fatal_lines W refStr :
  fatal_with (DeleteResolveRuns.site_message W refStr)
             (fst (run (DeleteResolve.main W refStr))) = true.
Proof.
  delete_resolve_runs W refStr;
    repeat first
      [ rewrite (fatal_with_listing _ _ _ (dr_site_message_tag_event W refStr)) by assumption
      | rewrite fatal_with_cons ];
    cbn [DeleteResolveRuns.site_message andb];
    rewrite ?String.eqb_refl;
    rewrite ?(fatal_with_listing_only _ _ (dr_site_message_tag_event W refStr)) by assumption;
    reflexivity.
Qed.

Lemma delete_resolve_head_deadline W refStr :
  forallb (head_deadline (10 * Second)) (fst (run (DeleteResolve.main W refStr))) = true.
Proof.
  assert (Htag : forall e, tag_event e = true -> head_deadline (10 * Second) e = true)
    by (intros e; by destruct e).
  delete_resolve_runs W refStr;
    repeat (progress
      (rewrite ?(forallb_listing _ _ _ Htag) by assumption;
       cbn [forallb head_deadline DeleteResolveRuns.head_opts andb]; rewrite ?Z.eqb_refl));
    try reflexivity.
  match goal with
  | H : listing ?q |- forallb _ ?q = true =>
      apply forallb_forall; intros e Hin; apply Htag;
      exact (listing_tag_event q e H Hin)
  end.
Qed.

(** ** The pull-and-save and the pull-then-push programs *)

Ltac destruct_match :=
  match goal with
  | |- context [match ?x with _ => _ end] =>
      lazymatch x with
      | context [match _ with _ => _ end] => fail
      | _ => destruct x eqn:?
      end
  end.

Ltac pull_save_runs :=
  unfold run, PullSave.main, PullSave.pullAndSave; unfold_m;
  repeat (destruct_match; cbn [fst snd app]).

Lemma pull_save_exits W f :
  exits_as W (String.eqb (PullSave.repo f) "") (run (PullSave.main W f)).
Proof. unfold exits_as. pull_save_runs; cbn; auto. Qed.

Lemma pull_save_errors W f :
  errors_end_run W (run (PullSave.main W f)).
Proof. unfold errors_end_run. pull_save_runs; cbn; auto. Qed.

Lemma pull_save_timeout W f :
  forallb (pull_timeout (10 * Minute)) (fst (run (PullSave.main W f))) = true.
Proof. pull_save_runs; reflexivity. Qed.

Ltac pull_push_runs :=
  unfold run, PullPush.main; unfold_m;
  repeat (destruct_match; cbn [fst snd app]).

Lemma pull_push_exits W :
  exits_as W false (run (PullPush.main W)).
Proof. unfold exits_as. pull_push_runs; cbn; auto. Qed.

Lemma pull_push_errors W :
  errors_end_run W (run (PullPush.main W)).
Proof. unfold errors_end_run. pull_push_runs; cbn; auto. Qed.

(** ** Formatting *)

Lemma append_empty_r (s : string) : s +:+ "" = s.
Proof.
  induction s as [|c s IH]; [reflexivity|].
  change (String c (s +:+ "") = String c s). by rewrite IH.
Qed.

Lemma substring_length_le (n : nat) (s : string) :
  (String.length (String.substring 0 n s) <= n)%nat.
Proof.
  revert s. induction n as [|n IH]; intros [|c s]; cbn; try lia.
  specialize (IH s). lia.
Qed.

Lemma Sprintf_catalog_status W (status : Z) (body : string) :
  Sprintf W "catalog returned status %d: %s" [AInt status; AStr body] =
  "catalog returned status " +:+ pretty status +:+ ": " +:+ body.
Proof.
  transitivity ("catalog returned status " +:+ pretty status +:+ ": " +:+ body +:+ "");
    [reflexivity | by rewrite append_empty_r].
Qed.

Lemma Sprintf_head_status W (status : Z) :
  Sprintf W "manifest HEAD returned status %d" [AInt status] =
  "manifest HEAD returned status " +:+ pretty status.
Proof.
  transitivity ("manifest HEAD returned status " +:+ pretty status +:+ "");
    [reflexivity | by rewrite append_empty_r].
Qed.

Lemma Sprintf_catalog_url W (reg : string) :
  Sprintf W "http://%s/v2/_catalog" [AStr reg] = "http://" +:+ reg +:+ "/v2/_catalog".
Proof. reflexivity. Qed.

Lemma Sprintf_manifest_url W (reg repo tag : string) :
  Sprintf W "http://%s/v2/%s/manifests/%s" [AStr reg; AStr repo; AStr tag] =
  "http://" +:+ reg +:+ "/v2/" +:+ repo +:+ "/manifests/" +:+ tag.
Proof.
  transitivity ("http://" +:+ reg +:+ "/v2/" +:+ repo +:+ "/manifests/" +:+ tag +:+ "");
    [reflexivity | by rewrite append_empty_r].
Qed.

Lemma Sprintf_at W (a b : string) :
  Sprintf W "%s@%s" [AStr a; AStr b] = a +:+ "@" +:+ b.
Proof.
  transitivity (a +:+ "@" +:+ b +:+ ""); [reflexivity | by rewrite append_empty_r].
Qed.

Lemma Sprintf_tar W (a b : string) :
  Sprintf W "%s_%s.tar" [AStr a; AStr b] = a +:+ "_" +:+ b +:+ ".tar".
Proof. reflexivity. Qed.

Lemma Sprintf_saved W (p : string) :
  Sprintf W "Saved image to %s" [AStr p] = "Saved image to " +:+ p.
Proof.
  transitivity ("Saved image to " +:+ p +:+ ""); [reflexivity | by rewrite append_empty_r].
Qed.

(** ** Paths *)

Import PullSavePaths.

Lemma append_assoc (a b c : string) : (a +:+ b) +:+ c = a +:+ (b +:+ c).
Proof.
  induction a as [|x a IH]; [reflexivity|].
  change (String x ((a +:+ b) +:+ c) = String x (a +:+ (b +:+ c))). by rewrite IH.
Qed.

Lemma append_length (a b : string) :
  String.length (a +:+ b) = (String.length a + String.length b)%nat.
Proof.
  induction a as [|x a IH]; [reflexivity|].
  change (S (String.length (a +:+ b)) = S (String.length a + String.length b)).
  by rewrite IH.
Qed.

Lemma no_sep_app (a b : string) :
  no_sep (a +:+ b) = no_sep a && no_sep b.
Proof.
  induction a as [|x a IH]; [reflexivity|].
  change (negb (is_sep x) && no_sep (a +:+ b) = negb (is_sep x) && no_sep a && no_sep b).
  by rewrite IH, andb_assoc.
Qed.

Lemma split_sep_no_sep (cur x : string) :
  no_sep x = true -> split_sep cur x = [cur +:+ x].
Proof.
  revert cur. induction x as [|c x IH]; intros cur Hx.
  - cbn. by rewrite append_empty_r.
  - cbn in Hx. apply andb_true_iff in Hx as [Hc Hx]. apply negb_true_iff in Hc.
    cbn [split_sep]. rewrite Hc, (IH _ Hx), append_assoc. reflexivity.
Qed.

Lemma split_sep_elements (path cur : string) :
  no_sep cur = true ->
  Forall (fun e => no_sep e = true) (split_sep cur path).
Proof.
  revert cur. induction path as [|c path IH]; intros cur Hcur.
  - by constructor.
  - cbn [split_sep]. destruct (is_sep c) eqn:Hc.
    + constructor; [exact Hcur | by apply IH].
    + apply IH. rewrite no_sep_app, Hcur. cbn. by rewrite Hc.
Qed.

Lemma last_Forall {A} (P : A -> Prop) (l : list A) (d : A) :
  P d -> Forall P l -> P (List.last l d).
Proof.
  intros Hd Hl. induction Hl as [|x l Hx Hl IH]; [exact Hd|].
  destruct l; [exact Hx | exact IH].
Qed.

(** The last element of a path holds no separator, unless the path holds
    nothing else. *)
Lemma Base_no_sep (path : string) : Base path = "/" \/ no_sep (Base path) = true.
Proof.
  unfold Base. destruct (String.eqb path ""); [by right|].
  match goal with
  | |- context [List.last ?l ""] =>
      assert (Hlast : no_sep (List.last l "") = true)
        by (apply (last_Forall (fun e => no_sep e = true)); [done|];
            by apply split_sep_elements)
  end.
  destruct (String.eqb (List.last _ "") ""); [by left | by right].
Qed.

Lemma no_sep_list (s : string) :
  no_sep s = true <-> Forall (fun c => is_sep c = false) (list_ascii_of_string s).
Proof.
  induction s as [|c s IH]; cbn.
  - split; [by constructor | done].
  - rewrite andb_true_iff, negb_true_iff, IH. split.
    + intros [Hc Hs]. by constructor.
    + intros H. inversion H; subst. done.
Qed.

(** A name without separators is its own last element. *)
Lemma Base_id (s : string) : no_sep s = true -> s <> "" -> Base s = s.
Proof.
  intros Hs Hne. unfold Base.
  rewrite (proj2 (String.eqb_neq s "") Hne).
  assert (Hstrip : strip_trailing_sep_rev (rev (list_ascii_of_string s)) =
                   rev (list_ascii_of_string s)).
  { apply no_sep_list in Hs. apply Forall_rev in Hs.
    destruct Hs as [|c r Hc _]; [done|]. cbn. by rewrite Hc. }
  rewrite Hstrip, rev_involutive, string_of_list_ascii_of_string.
  rewrite (split_sep_no_sep "" s Hs). cbn [List.last].
  change ("" +:+ s) with s.
  by rewrite (proj2 (String.eqb_neq s "") Hne).
Qed.

Lemma Join_folder (x : string) :
  no_sep x = true -> (3 <= String.length x)%nat ->
  filepath_Join ["downloaded-images"; x] = "downloaded-images/" +:+ x.
Proof.
  intros Hx Hlen.
  assert (Hne : String.eqb x "" = false /\ String.eqb x "." = false /\
                String.eqb x ".." = false).
  { repeat split; apply String.eqb_neq; intros ->; cbn in Hlen; lia. }
  destruct Hne as (H0 & H1 & H2).
  change (filepath_Join ["downloaded-images"; x])
    with (Clean ("downloaded-images/" +:+ x)).
  unfold Clean.
  change ("downloaded-images/" +:+ x)
    with (String "d" ("ownloaded-images/" +:+ x)) at 1.
  cbv beta iota.
  change (is_sep "d") with false. cbv beta iota zeta.
  change (split_sep "" ("downloaded-images/" +:+ x))
    with ("downloaded-images" :: split_sep "" x).
  rewrite (split_sep_no_sep "" x Hx). change ("" +:+ x) with x.
  cbn [fold_left]. change (clean_step false [] "downloaded-images")
    with ["downloaded-images"].
  unfold clean_step. rewrite H0, H1, H2. cbn [orb rev app Join].
  reflexivity.
Qed.

(** ** The claims *)

(** *** The garbage-collection command *)

(** C1.  The claim: with [-delete] and [-gc] the garbage collection runs
    [docker exec <container> /bin/registry garbage-collect ...] in the
    container that [-container] names.  On the run with [-repo golang
    -delete -gc] against a registry that answers every call, where
    [-container] keeps its default [local-registry], the one subprocess of
    the run is the command line for the container [5a77465126df], which is
    not the command line for [local-registry]. *)
Theorem C1_gc_command_ignores_container :
  commands (fst (run (Orchestrate.main (Sample.world Sample.fine) Sample.delete_gc_flags))) =
    [gc_command "5a77465126df"] /\
  Orchestrate.container Sample.delete_gc_flags = "local-registry" /\
  gc_command "5a77465126df" <> gc_command (Orchestrate.container Sample.delete_gc_flags).
Proof.
  split; [vm_compute; reflexivity|]. split; [reflexivity|]. discriminate.
Qed.

(** *** Fatal lines chosen by the text of the error *)

Lemma ends_fatal_cons e e' b : ends_fatal (e :: e' :: b) = ends_fatal (e' :: b).
Proof. apply (ends_fatal_app [e]). Qed.

Lemma fatal_with_ends msg tr :
  fatal_with msg tr = true -> existsb (has_message msg) tr = true ->
  ends_fatal tr = true.
Proof.
  induction tr as [|e tr IH]; [done|].
  rewrite fatal_with_cons. cbn [existsb]. unfold has_message at 1.
  intros [He Htr]%andb_true_iff Hex.
  destruct (msg e) as [m|].
  - destruct tr as [|[] [|]]; try discriminate He. reflexivity.
  - cbn in Hex. specialize (IH Htr Hex).
    destruct tr as [|e' tr]; [discriminate|].
    by rewrite ends_fatal_cons.
Qed.

Lemma fatal_with_exit W refused msg r :
  exits_as W refused r -> fatal_with msg (fst r) = true ->
  implb (existsb (has_message msg) (fst r)) (snd r =? 1) = true.
Proof.
  intros (_ & _ & Hends & _) Hfatal.
  destruct (existsb (has_message msg) (fst r)) eqn:Hex; [|reflexivity].
  cbn. rewrite <- Hends. by apply (fatal_with_ends msg).
Qed.

(** C5.  In the delete/resolve program a failed [remote.Head] is followed
    by the fatal line of [head_message], which names the missing manifest
    when the error text holds [MANIFEST_UNKNOWN] or [404], and a failed
    [crane.Delete] by the fatal line of [delete_message], which points to
    disabled deletes when the text holds [UNSUPPORTED]; in the
    orchestration program a failed [crane.Delete] is followed by the fatal
    line of its [delete_message], chosen by [UNSUPPORTED], then
    [DIGEST_INVALID].  In every case, matched or not, that fatal line is
    the last event of the run and the exit code is [1]. *)
Theorem C5_errors_matched_then_fatal (W : World) :
  (forall refStr,
     fatal_with (DeleteResolveRuns.site_message W refStr)
                (fst (run (DeleteResolve.main W refStr))) = true /\
     implb (existsb (has_message (DeleteResolveRuns.site_message W refStr))
                    (fst (run (DeleteResolve.main W refStr))))
           (snd (run (DeleteResolve.main W refStr)) =? 1) = true) /\
  (forall f,
     fatal_with (OrchestrateRuns.site_message W)
                (fst (run (Orchestrate.main W f))) = true /\
     implb (existsb (has_message (OrchestrateRuns.site_message W))
                    (fst (run (Orchestrate.main W f))))
           (snd (run (Orchestrate.main W f)) =? 1) = true).
Proof.
  split.
  - intros refStr. split; [apply delete_resolve_fatal_lines|].
    eapply fatal_with_exit; [apply delete_resolve_exits | apply delete_resolve_fatal_lines].
  - intros f. split; [apply orchestrate_fatal_lines|].
    eapply fatal_with_exit; [apply orchestrate_exits | apply orchestrate_fatal_lines].
Qed.

(** The three kinds of fatal line after a failed call do occur. *)
Example fatal_lines_not_vacuous :
  existsb (has_message (DeleteResolveRuns.site_message (Sample.world Sample.manifest_unknown)
                          DeleteResolve.default_ref))
    (fst (run (DeleteResolve.main (Sample.world Sample.manifest_unknown)
                                  DeleteResolve.default_ref))) = true /\
  existsb (has_message (DeleteResolveRuns.site_message (Sample.world Sample.delete_unsupported)
                          DeleteResolve.default_ref))
    (fst (run (DeleteResolve.main (Sample.world Sample.delete_unsupported)
                                  DeleteResolve.default_ref))) = true /\
  existsb (has_message (OrchestrateRuns.site_message (Sample.world Sample.delete_unsupported)))
    (fst (run (Orchestrate.main (Sample.world Sample.delete_unsupported)
                                Sample.delete_gc_flags))) = true.
Proof. vm_compute. repeat split; reflexivity. Qed.

(** *** The output path of pull-and-save *)

(** C6, as stated, fails.  The claim: without [--out] the tarball is at
    [downloaded-images/<repo>_<tag>.tar].  The run with
    [--repo library/golang] against a registry that answers every call
    exits with code [0] and saves the tarball at
    [downloaded-images/golang_latest.tar], which is not the path of the
    claim, [downloaded-images/library/golang_latest.tar]. *)
Lemma C6_counterexample_nested_repo :
  let r := run (PullSave.main (Sample.world Sample.fine) Sample.nested_repo_flags) in
  snd r = 0 /\
  saved_paths (fst r) = ["downloaded-images/golang_latest.tar"] /\
  described_path Sample.nested_repo_flags = "downloaded-images/library/golang_latest.tar" /\
  saved_paths (fst r) <> [described_path Sample.nested_repo_flags].
Proof. vm_compute. repeat split; try reflexivity. discriminate. Qed.

Lemma pull_save_success W f :
  snd (run (PullSave.main W f)) = 0 ->
  saved_paths (fst (run (PullSave.main W f))) = [output_path f] /\
  In ("Saved image to " +:+ output_path f) (log_lines (fst (run (PullSave.main W f)))) /\
  folder_made f (fst (run (PullSave.main W f))) = true /\
  PullSave.repo f <> "".
Proof.
  unfold output_path, folder_made.
  unfold run, PullSave.main, PullSave.pullAndSave; unfold_m.
  destruct (String.eqb (PullSave.repo f) "") eqn:Hrepo; [cbn; discriminate|].
  apply String.eqb_neq in Hrepo.
  destruct (String.eqb (PullSave.out f) "") eqn:Hout;
    repeat (destruct_match; cbn [fst snd app]); try discriminate; intros _;
    rewrite ?Sprintf_saved, ?Sprintf_tar; cbn [saved_paths log_lines omap];
    (split; [reflexivity|]); (split; [right; left; reflexivity|]); by split.
Qed.

(** C6, amended.  On a run of pull-and-save that exits with code [0], the
    tarball has been saved at one path, which the run logs: the [--out]
    value when given, otherwise the folder [downloaded-images], which the
    run has created, joined with [<last element of repo>_<tag>.tar].  When
    the tag holds no separator and the last element of the repository is
    not [/], that is [downloaded-images/<last element of repo>_<tag>.tar];
    when neither repository nor tag holds a separator it is the
    [downloaded-images/<repo>_<tag>.tar] of the claim. *)
Theorem C6_saved_at_output_path (W : World) (f : PullSave.Flags) :
  snd (run (PullSave.main W f)) = 0 ->
  saved_paths (fst (run (PullSave.main W f))) = [output_path f] /\
  In ("Saved image to " +:+ output_path f) (log_lines (fst (run (PullSave.main W f)))) /\
  folder_made f (fst (run (PullSave.main W f))) = true /\
  (no_sep (PullSave.tag f) = true -> Base (PullSave.repo f) <> "/" ->
   output_path f =
     if String.eqb (PullSave.out f) ""
     then "downloaded-images/" +:+ Base (PullSave.repo f) +:+ "_" +:+ PullSave.tag f +:+ ".tar"
     else PullSave.out f) /\
  (no_sep (PullSave.repo f) = true -> no_sep (PullSave.tag f) = true ->
   output_path f = described_path f).
Proof.
  intros Hok. destruct (pull_save_success W f Hok) as (Hsaved & Hlog & Hdir & Hrepo).
  repeat (split; [assumption|]).
  assert (Hjoin : forall b, no_sep b = true -> no_sep (PullSave.tag f) = true ->
            filepath_Join ["downloaded-images"; b +:+ "_" +:+ PullSave.tag f +:+ ".tar"] =
            "downloaded-images/" +:+ b +:+ "_" +:+ PullSave.tag f +:+ ".tar").
  { intros b Hb Htag. apply Join_folder.
    - by rewrite !no_sep_app, Hb, Htag.
    - rewrite !append_length. cbn. lia. }
  split.
  - intros Htag Hbase. unfold output_path.
    destruct (String.eqb (PullSave.out f) ""); [|reflexivity].
    apply Hjoin; [|exact Htag]. by destruct (Base_no_sep (PullSave.repo f)).
  - intros Hr Htag. unfold output_path, described_path.
    destruct (String.eqb (PullSave.out f) ""); [|reflexivity].
    rewrite (Base_id _ Hr Hrepo). by apply Hjoin.
Qed.

Lemma C6_witness :
  snd (run (PullSave.main (Sample.world Sample.fine) Sample.nested_repo_flags)) = 0 /\
  saved_paths (fst (run (PullSave.main (Sample.world Sample.fine) Sample.nested_repo_flags))) =
    [output_path Sample.nested_repo_flags].
Proof.
  split; [reflexivity|].
  apply (C6_saved_at_output_path (Sample.world Sample.fine) Sample.nested_repo_flags).
  reflexivity.
Defined.

(** *** Exit codes *)

(** C7.  Every program exits with code [0] or [1].  It exits with [1]
    exactly when it could not start on its work (the orchestration program
    with [-delete] and no [-repo], or no request for the digest; the
    delete/resolve program with a reference that does not parse;
    pull-and-save without [--repo]) or a call ended in an unrecoverable
    error (a failed catalog fetch, HEAD, delete, pull, save, push, folder
    creation or garbage collection); then the last event of the run is a
    fatal log line, and otherwise the run has none. *)
Theorem C7_exit_codes (W : World) :
  (forall f, exits_as W (refused W f) (run (Orchestrate.main W f))) /\
  (forall refStr,
     exits_as W (is_err (name_ParseReference W refStr))
              (run (DeleteResolve.main W refStr))) /\
  (forall f, exits_as W (String.eqb (PullSave.repo f) "") (run (PullSave.main W f))) /\
  exits_as W false (run (PullPush.main W)).
Proof.
  split; [apply orchestrate_exits|].
  split; [apply delete_resolve_exits|].
  split; [apply pull_save_exits | apply pull_push_exits].
Qed.

(** *** Delete by digest *)

Lemma delete_refs_app a b : delete_refs (a ++ b) = delete_refs a ++ delete_refs b.
Proof. apply omap_app. Qed.

Lemma delete_refs_listing l : listing l -> delete_refs l = [].
Proof.
  intros [Hl _]. induction l as [|e l IH]; [done|]. cbn in Hl.
  apply andb_true_iff in Hl as [He Hl]. unfold delete_refs in *.
  destruct e; try discriminate He; cbn; auto.
Qed.

Lemma delete_refs_cons e l :
  delete_refs (e :: l) =
  match e with CraneDelete ref _ _ => [ref] | _ => [] end ++ delete_refs l.
Proof. by destruct e. Qed.

(** The one delete of the delete/resolve program, and the [remote.Head]
    whose digest it carries. *)
Lemma delete_resolve_delete_ref (W : World) (refStr : string) :
  delete_refs (fst (run (DeleteResolve.main W refStr))) = [] \/
  exists ref desc,
    name_ParseReference W refStr = Ok ref /\
    In (RemoteHead ref DeleteResolveRuns.head_opts (Ok desc))
       (fst (run (DeleteResolve.main W refStr))) /\
    delete_refs (fst (run (DeleteResolve.main W refStr))) =
      [Repository_Name (Context ref) +:+ "@" +:+ Digest desc].
Proof.
  delete_resolve_runs W refStr;
    repeat first [ rewrite delete_refs_app
                 | rewrite delete_refs_listing by assumption
                 | rewrite delete_refs_cons ];
    cbn [app]; auto; right; exists ref, desc;
    (split; [done|]); (split; [by left|]);
    unfold DeleteResolveRuns.delete_ref, Hash_String; by rewrite Sprintf_at.
Qed.

(** On the sample registry the delete does happen, by digest. *)
Example delete_by_digest_not_vacuous :
  delete_refs (fst (run (DeleteResolve.main (Sample.world Sample.fine)
                                            DeleteResolve.default_ref))) =
  ["localhost:5000/mybusybox@" +:+ Sample.digest1].
Proof. vm_compute. reflexivity. Qed.

(** *** resolveDigestHTTP *)

(** C9.  When the HEAD request is made and answered, [resolveDigestHTTP]
    returns the status of the answer and the first 2048 bytes of its body,
    at most.  With a status of 400 or more it returns the error
    [manifest HEAD returned status <status>] and no digest.  With a status
    below 400 it returns as digest the [Docker-Content-Digest] header, or
    when that is empty the [Content-Digest] header, and no error; unless
    both are empty, when it returns an error and no digest. *)
Theorem C9_resolveDigestHTTP (W : World) (reg repo tag : string) (t : Duration)
    (h : Trace) (resp : Response) :
  let url := "http://" +:+ reg +:+ "/v2/" +:+ repo +:+ "/manifests/" +:+ tag in
  let req := {| Method := "HEAD"; URL := url;
                ReqHeader := <["Accept" := [Orchestrate.Accept_manifests]]> ∅ |} in
  let dcd := Header_Get (RespHeader resp) "Docker-Content-Digest" in
  let cd := Header_Get (RespHeader resp) "Content-Digest" in
  let body := ReadAll_LimitReader (Body resp) 2048 in
  http_NewRequest W "HEAD" url = None ->
  client_Do W h req t = Ok resp ->
  (String.length body <= 2048)%nat /\
  snd (Orchestrate.resolveDigestHTTP W reg repo tag t h) =
    Done (if 400 <=? StatusCode resp then
            ("", StatusCode resp, body,
             Some ("manifest HEAD returned status " +:+ pretty (StatusCode resp)))
          else if String.eqb dcd "" && String.eqb cd "" then
            ("", StatusCode resp, body,
             Some (Errorf W "digest header not found; headers: %v"
                          [AHeader (RespHeader resp)]))
          else
            (if String.eqb dcd "" then cd else dcd, StatusCode resp, body, None)).
Proof.
  intros url req dcd cd body Hreq Hdo.
  split; [apply substring_length_le|].
  unfold Orchestrate.resolveDigestHTTP.
  rewrite Sprintf_manifest_url. fold url. unfold MethodHead. rewrite Hreq.
  fold req. unfold bind at 1. unfold call at 1. rewrite Hdo.
  fold body. fold dcd. fold cd.
  destruct (400 <=? StatusCode resp).
  { unfold ret, Errorf. cbn. by rewrite Sprintf_head_status. }
  destruct (String.eqb dcd "") eqn:Hdcd; cbn [andb].
  - destruct (String.eqb cd ""); reflexivity.
  - rewrite Hdcd. reflexivity.
Qed.

Lemma C9_witness :
  snd (Orchestrate.resolveDigestHTTP (Sample.world Sample.manifest_unknown)
         "localhost:5000" "golang" "latest" (10 * Second) []) =
  Done ("", 404, "", Some "manifest HEAD returned status 404").
Proof.
  apply (C9_resolveDigestHTTP (Sample.world Sample.manifest_unknown)
           "localhost:5000" "golang" "latest" (10 * Second) []
           {| StatusCode := 404; RespHeader := ∅; Body := "" |});
    reflexivity.
Defined.

(** *** fetchCatalog *)

(** C10.  [fetchCatalog] makes one GET of [http://<reg>/v2/_catalog].  It
    returns the decoded catalog exactly when the GET is answered with
    status 200 and the body decodes.  With any other status it returns the
    error [catalog returned status <status>: <body>], the body cut to its
    first 2048 bytes; with status 200 and a body that does not decode, the
    error of the decoder; when the GET itself fails, the error of the
    GET. *)
Theorem C10_fetchCatalog (W : World) (reg : string) (t : Duration) (h : Trace) :
  let url := "http://" +:+ reg +:+ "/v2/_catalog" in
  let g := client_Get W h url t in
  let r := snd (Orchestrate.fetchCatalog W reg t h) in
  fst (Orchestrate.fetchCatalog W reg t h) = [HttpGet url t g] /\
  (forall c,
     r = Done (Ok c) <->
     exists resp, g = Ok resp /\ StatusCode resp = 200 /\
                  json_Decode W (Body resp) = Ok c) /\
  (forall resp,
     g = Ok resp -> StatusCode resp <> 200 ->
     r = Done (Err ("catalog returned status " +:+ pretty (StatusCode resp) +:+ ": " +:+
                    ReadAll_LimitReader (Body resp) 2048))) /\
  (forall body, (String.length (ReadAll_LimitReader body 2048) <= 2048)%nat) /\
  (forall resp e,
     g = Ok resp -> StatusCode resp = 200 -> json_Decode W (Body resp) = Err e ->
     r = Done (Err e)) /\
  (forall e, g = Err e -> r = Done (Err e)).
Proof.
  intros url g r. subst r. unfold Orchestrate.fetchCatalog.
  rewrite Sprintf_catalog_url. fold url. unfold bind, call, ret. fold g.
  unfold StatusOK, Errorf.
  destruct g as [resp|e].
  - destruct (StatusCode resp =? 200) eqn:Hs; cbn [negb fst snd app].
    + apply Z.eqb_eq in Hs.
      destruct (json_Decode W (Body resp)) as [c|e] eqn:Hdec; cbn [fst snd app].
      * split; [reflexivity|]. split.
        { intros c'. split.
          - intros [= <-]. by exists resp.
          - intros (resp' & [= <-] & _ & Hc). congruence. }
        split; [intros resp' [= <-] Hne; done|].
        split; [intros; apply substring_length_le|].
        split; [intros resp' e [= <-] _ He; congruence | intros e [=]].
      * split; [reflexivity|]. split.
        { intros c'. split; [intros [=]|].
          intros (resp' & [= <-] & _ & Hc). congruence. }
        split; [intros resp' [= <-] Hne; done|].
        split; [intros; apply substring_length_le|].
        split; [intros resp' e' [= <-] _ He; congruence | intros e' [=]].
    + apply Z.eqb_neq in Hs. split; [reflexivity|]. split.
      { intros c'. split; [intros [=]|].
        intros (resp' & [= <-] & Hs' & _). done. }
      split; [intros resp' [= <-] _; by rewrite Sprintf_catalog_status|].
      split; [intros; apply substring_length_le|].
      split; [intros resp' e' [= <-] Hs' _; done | intros e' [=]].
  - cbn [fst snd app]. split; [reflexivity|]. split.
    { intros c'. split; [intros [=]|]. intros (resp' & [=] & _). }
    split; [intros resp' [=]|].
    split; [intros; apply substring_length_le|].
    split; [intros resp' e' [=] | intros e' [= <-]; reflexivity].
Qed.

(** On the sample registries [fetchCatalog] returns the catalog, and the
    error with status and body. *)
Example fetchCatalog_samples :
  snd (Orchestrate.fetchCatalog (Sample.world Sample.fine) "localhost:5000" (10 * Second) []) =
    Done (Ok {| Repositories := ["golang"] |}) /\
  snd (Orchestrate.fetchCatalog (Sample.world Sample.catalog_down) "localhost:5000"
                                (10 * Second) []) =
    Done (Err "catalog returned status 500: internal error").
Proof. vm_compute. split; reflexivity. Qed.

(** * More properties of the programs *)

(** ** resolveDigestHTTP, in every case *)

(** X1.  [resolveDigestHTTP] always returns to its caller.  It returns a
    digest that is not empty exactly when it returns no error, and then the
    status is below 400; the body it returns has at most 2048 bytes; it
    sends at most one request; and when no request got a response (the
    request could not be made, or [client.Do] failed) the status is [0],
    the body is empty and the error is set. *)
Theorem X1_resolveDigestHTTP_invariant (W : World) (reg repo tag : string)
    (t : Duration) (h : Trace) :
  exists d s b err,
    snd (Orchestrate.resolveDigestHTTP W reg repo tag t h) = Done (d, s, b, err) /\
    (err = None <-> d <> "") /\
    (err = None -> s < 400) /\
    (String.length b <= 2048)%nat /\
    (length (requests (fst (Orchestrate.resolveDigestHTTP W reg repo tag t h))) <= 1)%nat /\
    (existsb answered (fst (Orchestrate.resolveDigestHTTP W reg repo tag t h)) = false ->
     s = 0 /\ b = "" /\ err <> None).
Proof.
  unfold Orchestrate.resolveDigestHTTP.
  destruct (http_NewRequest W _ _) as [e|].
  { exists "", 0, "", (Some e). cbn. repeat split; intros; try congruence; try done; try lia. }
  unfold bind, call, Println, emit, ret.
  destruct (client_Do W _ _ _) as [resp|e].
  2:{ exists "", 0, "", (Some e). cbn. repeat split; intros; try congruence; try done; try lia. }
  pose proof (substring_length_le 2048 (Body resp)) as Hlen.
  destruct (400 <=? StatusCode resp) eqn:Hs.
  { eexists _, _, _, _. cbn. split; [reflexivity|]. repeat split; intros; try congruence; try done; try lia. }
  apply Z.leb_gt in Hs.
  fold (header_digest resp).
  destruct (String.eqb (header_digest resp) "") eqn:Hd.
  { eexists _, _, _, _. cbn. split; [reflexivity|]. repeat split; intros; try congruence; try done; try lia. }
  apply String.eqb_neq in Hd.
  eexists _, _, _, _. cbn.
  split; [reflexivity|]. repeat split; intros; try congruence; try done; try lia.
Qed.

(** ** The tag listings *)

(** The loop that prints the elements of a list writes one line for each,
    in the order of the list. *)
Lemma forM__lines {A} (line : A -> string) (body : A -> M unit) (l : list A) h :
  (forall x h', body x h' = ([Stdout (line x)], Done tt)) ->
  forM_ l body h = (map (fun x => Stdout (line x)) l, Done tt).
Proof.
  intros Hbody. revert h. induction l as [|x l IH]; intros h; [reflexivity|].
  cbn [forM_]. unfold bind. by rewrite Hbody, IH.
Qed.

Lemma printTags_eq W ref h :
  let header := Stdout (LF +:+ "Tags for repo " +:+ Repository_Name (Context ref) +:+ ":" +:+ LF) in
  let r := remote_List W (h ++ [header]) (Context ref) [] in
  DeleteResolve.printTags W ref h =
    (header :: RemoteList (Context ref) [] r :: tags_output r, Done (error_of r)).
Proof.
  intros header r. unfold DeleteResolve.printTags.
  unfold Printf, Println. unfold bind at 1. unfold emit at 1.
  change (Stdout (Sprintf W (LF +:+ "Tags for repo %s:" +:+ LF)
                    [AStr (Repository_Name (Context ref))])) with header.
  unfold bind at 1. unfold call. fold r.
  destruct r as [[|t tags]|e].
  - reflexivity.
  - cbn [length Nat.eqb]. unfold bind.
    rewrite (forM__lines (fun t => "  " +:+ t +:+ LF)) by reflexivity.
    unfold ret. cbn. by rewrite app_nil_r.
  - reflexivity.
Qed.

(** X2.  [printTags] writes the header line for the repository of the
    reference, makes one [remote.List] call on that repository with no
    option, and then: when the call failed, writes nothing more and returns
    its error; when it returned no tag, writes [(no tags)]; otherwise
    writes one line for each tag, in the order returned; and in both these
    cases returns no error. *)
Theorem X2_printTags (W : World) (ref : Reference) (h : Trace) :
  let header := Stdout (LF +:+ "Tags for repo " +:+ Repository_Name (Context ref) +:+ ":" +:+ LF) in
  let r := remote_List W (h ++ [header]) (Context ref) [] in
  DeleteResolve.printTags W ref h =
    (header :: RemoteList (Context ref) [] r :: tags_output r, Done (error_of r)).
Proof. apply printTags_eq. Qed.

Lemma Sprintf_slash W (a b : string) :
  Sprintf W "%s/%s" [AStr a; AStr b] = a +:+ "/" +:+ b.
Proof.
  transitivity (a +:+ "/" +:+ b +:+ ""); [reflexivity | by rewrite append_empty_r].
Qed.

Lemma listTags_eq W base r h :
  let header := Stdout (LF +:+ "Repo: " +:+ base +:+ "/" +:+ r +:+ LF) in
  Orchestrate.listTags W base r h =
    match name_NewRepository W (base +:+ "/" +:+ r) with
    | Err e =>
        ([header; Stdout ("  parsing repository failed: " +:+ e +:+ LF)], Done tt)
    | Ok nrepo =>
        let res := remote_List W (h ++ [header]) nrepo [remote_WithContext Background] in
        (header :: RemoteList nrepo [remote_WithContext Background] res ::
         match res with
         | Err e => [Stdout ("  remote.List failed: " +:+ e +:+ LF)]
         | Ok _ => tags_output res
         end, Done tt)
    end.
Proof.
  intros header. unfold Orchestrate.listTags. rewrite Sprintf_slash.
  unfold Printf, Println. unfold bind at 1. unfold emit at 1.
  change (Stdout (Sprintf W (LF +:+ "Repo: %s" +:+ LF) [AStr (base +:+ "/" +:+ r)]))
    with (Stdout (LF +:+ "Repo: " +:+ (base +:+ "/" +:+ r) +:+ LF)).
  replace (Stdout (LF +:+ "Repo: " +:+ (base +:+ "/" +:+ r) +:+ LF)) with header
    by (unfold header; by rewrite !append_assoc).
  destruct (name_NewRepository W _) as [nrepo|e]; [|reflexivity].
  unfold bind at 1. unfold call.
  destruct (remote_List W _ _ _) as [[|t tags]|e]; cbn [length Nat.eqb].
  - reflexivity.
  - rewrite (forM__lines (fun t => "  " +:+ t +:+ LF)) by reflexivity. reflexivity.
  - reflexivity.
Qed.

(** X3.  The body of the listing loop, for one repository [r] of the
    catalog: it writes the header line of [<base>/<r>]; when that name does
    not parse it reports so and makes no call; otherwise it makes one
    [remote.List] call on the parsed repository, under the background
    context, and reports the failure of the call, or [(no tags)], or the
    tags one per line in the order returned.  In every case it returns to
    the loop. *)
Theorem X3_listTags (W : World) (base r : string) (h : Trace) :
  let header := Stdout (LF +:+ "Repo: " +:+ base +:+ "/" +:+ r +:+ LF) in
  Orchestrate.listTags W base r h =
    match name_NewRepository W (base +:+ "/" +:+ r) with
    | Err e =>
        ([header; Stdout ("  parsing repository failed: " +:+ e +:+ LF)], Done tt)
    | Ok nrepo =>
        let res := remote_List W (h ++ [header]) nrepo [remote_WithContext Background] in
        (header :: RemoteList nrepo [remote_WithContext Background] res ::
         match res with
         | Err e => [Stdout ("  remote.List failed: " +:+ e +:+ LF)]
         | Ok _ => tags_output res
         end, Done tt)
    end.
Proof. apply listTags_eq. Qed.

(** ** Every repository of the catalog is listed *)

Lemma listed_app a b : listed (a ++ b) = listed a ++ listed b.
Proof. apply omap_app. Qed.

Lemma listed_quiet q : quiet q -> listed q = [].
Proof.
  unfold quiet. induction q as [|e q IH]; [done|]. cbn.
  intros [He Hq]%andb_true_iff. destruct e; try discriminate He. by apply IH.
Qed.

Lemma listed_tag_lines tags : listed (tag_lines tags) = [].
Proof. induction tags as [|t tags IH]; [done|]. exact IH. Qed.

Lemma listed_listTags W base r h :
  listed (fst (Orchestrate.listTags W base r h)) =
  match parsed W base r with Some n => [n] | None => [] end /\
  snd (Orchestrate.listTags W base r h) = Done tt.
Proof.
  rewrite listTags_eq. unfold parsed.
  destruct (name_NewRepository W _) as [nrepo|e]; [|done].
  cbn [fst snd]. split; [|reflexivity].
  destruct (remote_List W _ _ _) as [[|t tags]|e]; cbn; try reflexivity.
  change (listed (Stdout ("  " +:+ t +:+ LF) :: tag_lines tags))
    with (listed (tag_lines tags)).
  by rewrite listed_tag_lines.
Qed.

(** What a loop adds to an observation made event by event is what its
    rounds add, in order. *)
Lemma forM__listed {A} (g : A -> list Repository) (body : A -> M unit) (l : list A) :
  (forall x h, listed (fst (body x h)) = g x /\ snd (body x h) = Done tt) ->
  forall h, listed (fst (forM_ l body h)) = flat_map g l /\
            snd (forM_ l body h) = Done tt.
Proof.
  intros Hbody. induction l as [|x l IH]; intros h; [done|].
  cbn [forM_ flat_map]. unfold bind.
  destruct (Hbody x h) as [Hx Hd]. destruct (body x h) as [es o].
  cbn [fst snd] in *. subst o.
  destruct (IH (h ++ es)) as [Hl Hd']. destruct (forM_ l body (h ++ es)) as [es' o'].
  cbn [fst snd] in *. subst o'. split; [|reflexivity].
  by rewrite listed_app, Hx, Hl.
Qed.

Lemma flat_map_option {A B} (f : A -> option B) (l : list A) :
  flat_map (fun x => match f x with Some y => [y] | None => [] end) l = omap f l.
Proof.
  induction l as [|x l IH]; [done|]. cbn. rewrite IH. by destruct (f x).
Qed.

Lemma listed_delete_run W f es o : DeleteRun W f es o -> listed es = [].
Proof.
  intros Hrun. destruct Hrun;
    repeat first [ rewrite listed_app | rewrite listed_quiet by assumption ];
    cbn [app];
    repeat (progress
      (change (listed (?e :: ?l)) with (listed l) ||
       rewrite ?listed_app, ?listed_quiet by assumption)); try reflexivity.
Qed.

Lemma main_listed W f :
  listed (fst (run (Orchestrate.main W f))) =
  omap (parsed W (base f)) (fetched_catalog W (fst (run (Orchestrate.main W f)))).
Proof.
  destruct (run (Orchestrate.main W f)) as [tr code] eqn:H. cbn [fst].
  unfold run, Orchestrate.main in H. fold (base f) in H. fold (timeout f) in H.
  unfold_m.
  match type of H with
  | context [Orchestrate.fetchCatalog W ?a ?b ?h] =>
      destruct (fetchCatalog_run W a b h) as (g & Hev & Hres);
      destruct (Orchestrate.fetchCatalog W a b h) as [es0 [[c|e]|code']]
  end; cbn [fst snd] in *; [| |done]; subst es0.
  2:{ cbn in H. injection H as <- <-. cbn.
      destruct g as [resp|e']; [|reflexivity]. by rewrite Hres. }
  destruct Hres as (resp & -> & Hdec & Hacc).
  match type of H with
  | context [Orchestrate.printCatalog ?c ?h] =>
      destruct (printCatalog_events c h) as (es1 & Hq & Hes1);
      rewrite Hq in H; clear Hq
  end.
  match type of H with
  | context [forM_ ?l (Orchestrate.listTags W ?b) ?h] =>
      destruct (forM__listed
                  (fun r => match parsed W b r with Some n => [n] | None => [] end)
                  (Orchestrate.listTags W b) l (listed_listTags W b) h) as (Hl & Hd);
      destruct (forM_ l (Orchestrate.listTags W b) h) as [es2 o2]
  end.
  cbn [fst snd] in Hl, Hd. subst o2. rewrite flat_map_option in Hl.
  assert (Hrest : exists es3 o3,
             (tr, code) =
             (Stdout (Sprintf W ("Registry: %s" +:+ LF) [AStr (base f)]) ::
              Stdout (Sprintln [AStr (LF +:+ "==> 1. Listing catalog via HTTP GET /v2/_catalog")]) ::
              HttpGet (Sprintf W "http://%s/v2/_catalog" [AStr (base f)]) (timeout f) (Ok resp) ::
              es1 ++
              Stdout (Sprintln [AStr (LF +:+ "==> 2. Listing tags for each repository using remote.List()")]) ::
              es2 ++ es3, o3) /\ listed es3 = []).
  { destruct (Orchestrate.doDelete f); cbn [negb] in H.
    - match type of H with
      | context [Orchestrate.deleteSteps W f ?b ?t ?h] =>
          pose proof (deleteSteps_run W f h) as Hrun;
          destruct (Orchestrate.deleteSteps W f b t h) as [es3 o3]
      end.
      cbn [fst snd] in Hrun. apply listed_delete_run in Hrun.
      exists es3, (match o3 with Done _ => 0 | Exited c' => c' end).
      split; [|exact Hrun].
      rewrite <- H. destruct o3; cbn; by rewrite <- ?app_assoc.
    - exists [Stdout (Sprintln [AStr (LF +:+ "Done (no delete requested).")])], 0.
      split; [|reflexivity].
      rewrite <- H. cbn. by rewrite <- ?app_assoc. }
  destruct Hrest as (es3 & o3 & [= -> ->] & Hes3).
  cbn [fetched_catalog]. rewrite Hacc, Hdec.
  change (listed (?a :: ?b :: ?c :: ?l)) with (listed l).
  rewrite listed_app, (listed_quiet es1 Hes1).
  match goal with
  | |- context [listed (Stdout ?s :: ?l)] => change (listed (Stdout s :: l)) with (listed l)
  end.
  rewrite listed_app, Hes3, app_nil_r. exact Hl.
Qed.

(** X4.  The tag listings of a run of the orchestration program are for
    the repositories of the fetched catalog whose names parse, each one
    once and in the order of the catalog: a listing that fails, or a name
    that does not parse, does not stop the listings after it.  When the
    catalog is not fetched, no tags are listed. *)
Theorem X4_every_repository_listed (W : World) (f : Orchestrate.Flags) :
  listed (fst (run (Orchestrate.main W f))) =
  omap (parsed W (base f)) (fetched_catalog W (fst (run (Orchestrate.main W f)))).
Proof. apply main_listed. Qed.

(** On a registry where every tag listing fails, the three repositories of
    the catalog are still listed, each one. *)
Example every_repository_listed_sample :
  length (listed (fst (run (Orchestrate.main (Sample.world SampleMore.three_repos_list_fails)
                                             Orchestrate.default_flags)))) = 3%nat /\
  fetched_catalog (Sample.world SampleMore.three_repos_list_fails)
    (fst (run (Orchestrate.main (Sample.world SampleMore.three_repos_list_fails)
                                Orchestrate.default_flags))) =
    ["golang"; "busybox"; "alpine"].
Proof. vm_compute. split; reflexivity. Qed.

(** ** The requests of the orchestration program *)

Lemma omap_listing {B} (g : Event -> option B) (l : Trace) :
  (forall e, tag_event e = true -> g e = None) -> listing l -> omap g l = [].
Proof.
  intros Hg [Hl _]. induction l as [|e l IH]; [done|]. cbn in Hl.
  apply andb_true_iff in Hl as [He Hl]. cbn. by rewrite (Hg e He), IH.
Qed.

Lemma omap_cons_event {B} (g : Event -> option B) (e : Event) (l : Trace) :
  omap g (e :: l) = match g e with Some x => [x] | None => [] end ++ omap g l.
Proof. cbn. by destruct (g e). Qed.

(** An observation made event by event, on a run given piece by piece. *)
Ltac observe_norm :=
  repeat first
    [ rewrite omap_app
    | rewrite omap_cons_event
    | match goal with
      | H : listing ?l |- context [omap ?g ?l] =>
          rewrite (omap_listing g l) by (assumption || by intros [])
      end ];
  cbn [app].

Lemma Sprintf_delete_ref W (a b c : string) :
  Sprintf W "%s/%s@%s" [AStr a; AStr b; AStr c] = a +:+ "/" +:+ b +:+ "@" +:+ c.
Proof.
  transitivity (a +:+ "/" +:+ b +:+ "@" +:+ c +:+ "");
    [reflexivity | by rewrite append_empty_r].
Qed.

Lemma orchestrate_delete_ref W f :
  delete_refs (fst (run (Orchestrate.main W f))) = [] \/
  exists resp,
    In (HttpDo (head_request W f) (timeout f) (Ok resp)) (fst (run (Orchestrate.main W f))) /\
    StatusCode resp < 400 /\
    header_digest resp <> "" /\
    delete_refs (fst (run (Orchestrate.main W f))) =
      [base f +:+ "/" +:+ Orchestrate.repo f +:+ "@" +:+ header_digest resp].
Proof.
  unfold delete_refs.
  orchestrate_runs W f; observe_norm; auto;
    match goal with
    | H : accepted W (HttpDo _ _ (Ok ?r)) = true |- _ =>
        right; exists r;
        rewrite accepted_head in H; apply andb_true_iff in H as [Hs Hd];
        apply negb_true_iff in Hs, Hd; apply Z.leb_gt in Hs; apply String.eqb_neq in Hd
    end;
    (split; [rewrite !in_app_iff; cbn [In]; rewrite !in_app_iff; cbn [In]; tauto|]);
    (split; [exact Hs|]); (split; [exact Hd|]);
    unfold delete_ref; by rewrite Sprintf_delete_ref.
Qed.

(** X5.  The orchestration program asks for at most one delete, and only
    of a digest: the reference is [<base>/<repo>@<digest>], where the
    digest is the one read from the headers of the response to the HEAD
    request of the same run, a response with a status below 400; the digest
    is never empty, and the [-tag] value is no part of the reference. *)
Theorem X5_orchestrate_delete_by_digest (W : World) (f : Orchestrate.Flags) :
  delete_refs (fst (run (Orchestrate.main W f))) = [] \/
  exists resp,
    In (HttpDo (head_request W f) (timeout f) (Ok resp)) (fst (run (Orchestrate.main W f))) /\
    StatusCode resp < 400 /\
    header_digest resp <> "" /\
    delete_refs (fst (run (Orchestrate.main W f))) =
      [base f +:+ "/" +:+ Orchestrate.repo f +:+ "@" +:+ header_digest resp].
Proof. apply orchestrate_delete_ref. Qed.




Lemma HasSuffix_append (s x : string) : HasSuffix (s +:+ x) x = true.
Proof.
  induction s as [|c s IH].
  - change ("" +:+ x) with x. destruct x; cbn; by rewrite ?String.eqb_refl, ?Ascii.eqb_refl.
  - change (String c s +:+ x) with (String c (s +:+ x)).
    cbn [HasSuffix]. rewrite IH. apply orb_true_r.
Qed.

Lemma substring_prefix (s x : string) :
  String.substring 0 (String.length s) (s +:+ x) = s.
Proof.
  induction s as [|c s IH].
  - change ("" +:+ x) with x. by destruct x.
  - change (String c s +:+ x) with (String c (s +:+ x)). cbn. by rewrite IH.
Qed.

(** [strings.TrimSuffix] takes one copy of the suffix away. *)
Lemma TrimSuffix_append (s x : string) : TrimSuffix (s +:+ x) x = s.
Proof.
  unfold TrimSuffix. rewrite HasSuffix_append, append_length.
  replace (String.length s + String.length x - String.length x)%nat
    with (String.length s) by lia.
  apply substring_prefix.
Qed.

Lemma orchestrate_gets W f :
  gets (fst (run (Orchestrate.main W f))) =
    [("http://" +:+ base f +:+ "/v2/_catalog", dmul (Orchestrate.timeoutSec f) Second)] /\
  exists q g rest,
    fst (run (Orchestrate.main W f)) =
      q ++ HttpGet ("http://" +:+ base f +:+ "/v2/_catalog")
                   (dmul (Orchestrate.timeoutSec f) Second) g :: rest /\
    quiet q.
Proof.
  unfold gets.
  orchestrate_runs W f; observe_norm; (split; [reflexivity|]);
    eexists q, _, _; (split; [reflexivity | assumption]).
Qed.

(** X7.  Every run of the orchestration program makes one GET, whatever
    the flags: of [http://<base>/v2/_catalog], with the timeout of
    [-timeout], and before any other call.  The base is [-registry]
    without one trailing slash: a registry given as [<host>/] is asked at
    [<host>], one given without trailing slash as it is. *)
Theorem X7_catalog_request (W : World) (f : Orchestrate.Flags) :
  gets (fst (run (Orchestrate.main W f))) =
    [("http://" +:+ base f +:+ "/v2/_catalog", dmul (Orchestrate.timeoutSec f) Second)] /\
  (exists q g rest,
     fst (run (Orchestrate.main W f)) =
       q ++ HttpGet ("http://" +:+ base f +:+ "/v2/_catalog")
                    (dmul (Orchestrate.timeoutSec f) Second) g :: rest /\
     quiet q) /\
  (forall host, Orchestrate.registry f = host +:+ "/" -> base f = host) /\
  (HasSuffix (Orchestrate.registry f) "/" = false -> base f = Orchestrate.registry f).
Proof.
  destruct (orchestrate_gets W f) as [Hgets Hfirst].
  split; [exact Hgets|]. split; [exact Hfirst|]. split.
  - intros host Hreg. unfold base. rewrite Hreg. apply TrimSuffix_append.
  - intros Hno. unfold base, TrimSuffix. by rewrite Hno.
Qed.

(** Registries given with and without a trailing slash. *)
Example base_samples :
  base SampleMore.delete_no_repo_flags = "localhost:5000" /\
  base Sample.delete_gc_flags = "localhost:5000".
Proof. split; reflexivity. Qed.

Lemma orchestrate_requests W f :
  requests (fst (run (Orchestrate.main W f))) = [] \/
  (requests (fst (run (Orchestrate.main W f))) = [head_request W f] /\
   Orchestrate.doDelete f = true /\ Orchestrate.repo f <> "").
Proof.
  unfold requests.
  orchestrate_runs W f; observe_norm; auto.
Qed.

(** X8.  The orchestration program sends at most one request through
    [client.Do], and only with [-delete] and a [-repo]: a HEAD of
    [http://<base>/v2/<repo>/manifests/<tag>] whose [Accept] header names
    the Docker v2 and the OCI manifest types. *)
Theorem X8_head_request (W : World) (f : Orchestrate.Flags) :
  let req := {| Method := "HEAD";
                URL := "http://" +:+ base f +:+ "/v2/" +:+ Orchestrate.repo f +:+
                       "/manifests/" +:+ Orchestrate.tag f;
                ReqHeader := <["Accept" := [Orchestrate.Accept_manifests]]> ∅ |} in
  (requests (fst (run (Orchestrate.main W f))) = [] \/
   (requests (fst (run (Orchestrate.main W f))) = [req] /\
    Orchestrate.doDelete f = true /\ Orchestrate.repo f <> "")) /\
  Header_Get (ReqHeader req) "Accept" =
    "application/vnd.docker.distribution.manifest.v2+json,application/vnd.oci.image.manifest.v1+json".
Proof.
  intros req. split; [|reflexivity].
  replace req with (head_request W f)
    by (unfold req, head_request, MethodHead; by rewrite Sprintf_manifest_url).
  apply orchestrate_requests.
Qed.

(** ** Pull-and-save, and pull-then-push *)

Lemma Sprintf_image_ref W (a b c : string) :
  Sprintf W "%s/%s:%s" [AStr a; AStr b; AStr c] = a +:+ "/" +:+ b +:+ ":" +:+ c.
Proof.
  transitivity (a +:+ "/" +:+ b +:+ ":" +:+ c +:+ "");
    [reflexivity | by rewrite append_empty_r].
Qed.

(** X9.  Pull-and-save creates a folder only when [--repo] is given and
    [--out] is not: the folder [downloaded-images], with permission bits
    [0o755], once.  Without [--repo] it makes no call at all, and when the
    folder cannot be created it pulls nothing. *)
Theorem X9_pull_save_folder (W : World) (f : PullSave.Flags) :
  folders (fst (run (PullSave.main W f))) =
    (if String.eqb (PullSave.repo f) "" || negb (String.eqb (PullSave.out f) "")
     then [] else [("downloaded-images", 493)]) /\
  String.eqb (PullSave.repo f) "" && existsb is_call (fst (run (PullSave.main W f))) = false /\
  existsb folder_failed (fst (run (PullSave.main W f))) &&
    existsb is_pull (fst (run (PullSave.main W f))) = false.
Proof.
  unfold run, PullSave.main, PullSave.pullAndSave; unfold_m.
  destruct (String.eqb (PullSave.repo f) ""); [by cbn|].
  destruct (String.eqb (PullSave.out f) ""); cbn [orb negb andb];
    repeat (destruct_match; cbn [fst snd app]); cbn; repeat split; reflexivity.
Qed.

Lemma pull_save_pulls W f :
  pulls (fst (run (PullSave.main W f))) = [] \/
  pulls (fst (run (PullSave.main W f))) =
    [(PullSave.registry f +:+ "/" +:+ PullSave.repo f +:+ ":" +:+ PullSave.tag f,
      (if PullSave.insecure f then [crane_Insecure] else []) ++
      [crane_WithContextTimeout (10 * Minute)])].
Proof.
  pull_save_runs; rewrite ?Sprintf_image_ref; cbn; auto.
Qed.

(** X10.  Pull-and-save pulls at most once, the reference
    [<registry>/<repo>:<tag>] built from its flags, with the option
    [crane.Insecure] exactly when [--insecure] is set, followed by the
    context timeout of ten minutes. *)
Theorem X10_pull_save_pull (W : World) (f : PullSave.Flags) :
  pulls (fst (run (PullSave.main W f))) = [] \/
  pulls (fst (run (PullSave.main W f))) =
    [(PullSave.registry f +:+ "/" +:+ PullSave.repo f +:+ ":" +:+ PullSave.tag f,
      (if PullSave.insecure f then [crane_Insecure] else []) ++
      [crane_WithContextTimeout (10 * Minute)])].
Proof. apply pull_save_pulls. Qed.

Lemma pull_save_saves W f :
  saves (fst (run (PullSave.main W f))) = [] \/
  exists img,
    pulled (fst (run (PullSave.main W f))) = [img] /\
    saves (fst (run (PullSave.main W f))) =
      [(img, PullSave.registry f +:+ "/" +:+ PullSave.repo f +:+ ":" +:+ PullSave.tag f,
        output_path f)].
Proof.
  unfold output_path.
  pull_save_runs; rewrite ?Sprintf_image_ref, ?Sprintf_tar; cbn; auto;
    right; eexists; split; reflexivity.
Qed.

(** X11.  Pull-and-save saves at most once, and what it saves is the image
    that its one successful pull returned, under the reference it pulled,
    at the output path; after a failed pull nothing is saved. *)
Theorem X11_pull_save_saves_pulled (W : World) (f : PullSave.Flags) :
  saves (fst (run (PullSave.main W f))) = [] \/
  exists img,
    pulled (fst (run (PullSave.main W f))) = [img] /\
    saves (fst (run (PullSave.main W f))) =
      [(img, PullSave.registry f +:+ "/" +:+ PullSave.repo f +:+ ":" +:+ PullSave.tag f,
        output_path f)].
Proof. apply pull_save_saves. Qed.

(** The sample runs of pull-and-save do pull and save. *)
Example pull_save_samples :
  saves (fst (run (PullSave.main (Sample.world Sample.fine) SampleMore.out_flags))) =
    [(ImageHandle 1, "registry.example.com/golang:1.21-alpine", "/tmp/golang.tar")] /\
  pulls (fst (run (PullSave.main (Sample.world Sample.fine) SampleMore.out_flags))) =
    [("registry.example.com/golang:1.21-alpine", [crane_WithContextTimeout (10 * Minute)])] /\
  folders (fst (run (PullSave.main (Sample.world Sample.fine) SampleMore.out_flags))) = [] /\
  folders (fst (run (PullSave.main (Sample.world Sample.fine) Sample.nested_repo_flags))) =
    [("downloaded-images", 493)].
Proof. vm_compute. repeat split; reflexivity. Qed.

Lemma pull_push_calls W :
  pulls (fst (run (PullPush.main W))) = [("busybox:latest", [crane_WithContext Background])] /\
  (pushes (fst (run (PullPush.main W))) = [] /\ pulled (fst (run (PullPush.main W))) = [] \/
   exists img,
     pulled (fst (run (PullPush.main W))) = [img] /\
     pushes (fst (run (PullPush.main W))) =
       [(img, "localhost:5000/mybusybox:latest",
         [crane_Insecure; crane_WithContext Background])]).
Proof.
  pull_push_runs; cbn; (split; [reflexivity|]); auto;
    right; eexists; split; reflexivity.
Qed.

(** X12.  The pull-then-push program pulls once, [busybox:latest], under
    the background context and without [crane.Insecure].  It pushes only
    after that pull went through, once, the image the pull returned, to
    [localhost:5000/mybusybox:latest] with [crane.Insecure]; after a failed
    pull it pushes nothing. *)
Theorem X12_pull_push (W : World) :
  pulls (fst (run (PullPush.main W))) = [("busybox:latest", [crane_WithContext Background])] /\
  (pushes (fst (run (PullPush.main W))) = [] /\ pulled (fst (run (PullPush.main W))) = [] \/
   exists img,
     pulled (fst (run (PullPush.main W))) = [img] /\
     pushes (fst (run (PullPush.main W))) =
       [(img, "localhost:5000/mybusybox:latest",
         [crane_Insecure; crane_WithContext Background])]).
Proof. apply pull_push_calls. Qed.

(** ** The order of the calls of the delete/resolve program *)

Lemma resolve_steps_app W a b :
  resolve_steps W (a ++ b) = resolve_steps W a ++ resolve_steps W b.
Proof. apply omap_app. Qed.

Lemma resolve_steps_tags_output W r : resolve_steps W (tags_output r) = [].
Proof.
  destruct r as [[|t tags]|e]; try reflexivity.
  unfold tags_output, tag_lines. generalize (t :: tags). intros l.
  induction l as [|x l IH]; [reflexivity | exact IH].
Qed.

Lemma delete_resolve_order_of W refStr tr code :
  run (DeleteResolve.main W refStr) = (tr, code) ->
  ResolveOrder (resolve_steps W tr) code /\
  (length (resolve_steps W tr) =? 0)%nat = is_err (name_ParseReference W refStr).
Proof.
  unfold run, DeleteResolve.main.
  destruct (name_ParseReference W refStr) as [ref|e].
  2:{ unfold_m. cbn. intros [= <- <-]. split; [constructor | reflexivity]. }
  unfold bind at 1. unfold call at 1.
  destruct (remote_Head W _ _ _) as [desc|e].
  2:{ destruct (Contains e "MANIFEST_UNKNOWN" || Contains e "404");
        unfold_m; cbn; intros [= <- <-]; (split; [constructor | reflexivity]). }
  assert (Hacc : forall opts, accepted W (RemoteHead ref opts (Ok desc)) =
                              negb (String.eqb (Digest desc) "")) by reflexivity.
  destruct (String.eqb (Digest desc) "") eqn:Hdig.
  { unfold_m. cbn. intros [= <- <-]. cbn. rewrite Hacc.
    split; [constructor | reflexivity]. }
  unfold Printf, Println, bind, emit, call, ret.
  repeat match goal with
         | |- context [DeleteResolve.printTags W ?r ?h] =>
             let Hp := fresh "Hp" in
             pose proof (printTags_eq W r h) as Hp; cbv zeta in Hp; rewrite Hp; clear Hp
         end.
  match goal with
  | |- context [remote_List W ?h ?r ?o] => generalize (remote_List W h r o)
  end.
  intros r1.
  assert (Hstep : forall repo opts (r : result (list string)) rest,
             resolve_steps W (RemoteList repo opts r :: tags_output r ++ rest) =
             (STags, accepted W (RemoteList repo opts r)) :: resolve_steps W rest).
  { intros repo opts r rest. unfold resolve_steps at 1. rewrite omap_cons_event.
    cbn [resolve_step_of app]. rewrite omap_app.
    fold (resolve_steps W (tags_output r)). by rewrite resolve_steps_tags_output. }
  assert (Hwarn : forall (r : result (list string)) (w : error -> string) h,
             (match error_of r with
              | Some err => fun _ : Trace => ([Stdout (w err)], Done tt)
              | None => fun _ : Trace => ([], Done tt)
              end) h =
             (match r with Err e => [Stdout (w e)] | Ok _ => [] end, @Done unit tt))
    by (intros [|] w h; reflexivity).
  rewrite (Hwarn r1 (fun err => Sprintf W ("Warning: unable to list tags: %v" +:+ LF) [AErr err])).
  destruct (crane_Delete W _ _ _) as [e|].
  { destruct (Contains e "UNSUPPORTED"); unfold_m; cbn [app fst snd];
      intros [= <- <-]; (split; [|reflexivity]);
      cbn [app]; unfold resolve_steps at 1; rewrite !omap_cons_event;
      cbn [resolve_step_of app]; rewrite !omap_app;
      fold (resolve_steps W (tags_output r1)); rewrite resolve_steps_tags_output, Hacc;
      destruct r1; apply RO_delete_failed. }
  cbv beta.
  repeat match goal with
         | |- context [DeleteResolve.printTags W ?r ?h] =>
             let Hp := fresh "Hp" in
             pose proof (printTags_eq W r h) as Hp; cbv zeta in Hp; rewrite Hp; clear Hp
         end.
  match goal with
  | |- context [tags_output (remote_List W ?h ?r ?o)] => generalize (remote_List W h r o)
  end.
  intros r2.
  rewrite (Hwarn r2 (fun err => Sprintf W ("Warning: unable to list tags after delete: %v" +:+ LF) [AErr err])).
  cbn [app fst snd]. intros [= <- <-]. split; [|reflexivity].
  unfold resolve_steps at 1. rewrite !omap_cons_event.
  cbn [resolve_step_of app]. rewrite !omap_app.
  fold (resolve_steps W (tags_output r1)). rewrite resolve_steps_tags_output, Hacc.
  rewrite !omap_cons_event. cbn [resolve_step_of app]. rewrite !omap_app.
  fold (resolve_steps W (tags_output r2)). rewrite resolve_steps_tags_output.
  destruct r1, r2; apply RO_deleted.
Qed.

(** X13. The delete-and-resolve program calls the registry in one fixed order:
    nothing when the reference does not parse; otherwise a HEAD for the digest,
    and only when that gives a non-empty digest a tag listing, the delete by
    digest, and only after an accepted delete a second tag listing.  A failed
    listing never stops the run, and the exit code is 0 exactly on the last
    shape. *)
Theorem X13_delete_resolve_order W refStr :
  ResolveOrder (resolve_steps W (fst (run (DeleteResolve.main W refStr))))
               (snd (run (DeleteResolve.main W refStr))) /\
  (length (resolve_steps W (fst (run (DeleteResolve.main W refStr)))) =? 0)%nat =
    is_err (name_ParseReference W refStr).
Proof.
  destruct (run (DeleteResolve.main W refStr)) as [tr code] eqn:Hrun.
  exact (delete_resolve_order_of W refStr tr code Hrun).
Qed.

Example delete_resolve_order_samples :
  resolve_steps (Sample.world Sample.fine)
    (fst (run (DeleteResolve.main (Sample.world Sample.fine) DeleteResolve.default_ref))) =
    [(SDigest, true); (STags, true); (SDelete, true); (STags, true)] /\
  resolve_steps (Sample.world Sample.list_fails)
    (fst (run (DeleteResolve.main (Sample.world Sample.list_fails) DeleteResolve.default_ref))) =
    [(SDigest, true); (STags, false); (SDelete, true); (STags, false)] /\
  resolve_steps (Sample.world Sample.delete_unsupported)
    (fst (run (DeleteResolve.main (Sample.world Sample.delete_unsupported)
                                  DeleteResolve.default_ref))) =
    [(SDigest, true); (STags, true); (SDelete, false)] /\
  resolve_steps (Sample.world Sample.manifest_unknown)
    (fst (run (DeleteResolve.main (Sample.world Sample.manifest_unknown)
                                  DeleteResolve.default_ref))) =
    [(SDigest, false)].
Proof. vm_compute. repeat split; reflexivity. Qed.

(** * Whole runs *)

(** ** The calls of the delete/resolve program *)

Lemma delete_resolve_heads W refStr :
  heads (fst (run (DeleteResolve.main W refStr))) =
  match name_ParseReference W refStr with
  | Ok ref => [(ref, DeleteResolveRuns.head_opts)]
  | Err _ => []
  end.
Proof.
  unfold heads. delete_resolve_runs W refStr; observe_norm; reflexivity.
Qed.

Lemma delete_resolve_digest_ref W refStr :
  delete_refs (fst (run (DeleteResolve.main W refStr))) =
  map digest_ref (resolved (fst (run (DeleteResolve.main W refStr)))).
Proof.
  unfold delete_refs, resolved.
  delete_resolve_runs W refStr; observe_norm; try reflexivity;
    repeat match goal with
           | H : Digest _ = "" |- _ => rewrite H
           | H : Digest _ <> "" |- _ => rewrite (proj2 (String.eqb_neq _ _) H)
           end;
    cbn [map app omap String.eqb]; try reflexivity;
    unfold DeleteResolveRuns.delete_ref, digest_ref; cbn [fst snd];
    by rewrite Sprintf_at.
Qed.

Lemma digest_ref_untagged rd :
  digest_ref rd = Repository_Name (fst (untagged rd)) +:+ "@" +:+ Hash_String (snd (untagged rd)).
Proof. reflexivity. Qed.

Lemma pull_save_pulls_exact W f :
  pulls (fst (run (PullSave.main W f))) =
  if String.eqb (PullSave.repo f) "" || existsb folder_failed (fst (run (PullSave.main W f)))
  then []
  else [(PullSave.registry f +:+ "/" +:+ PullSave.repo f +:+ ":" +:+ PullSave.tag f,
         (if PullSave.insecure f then [crane_Insecure] else []) ++
         [crane_WithContextTimeout (10 * Minute)])].
Proof.
  unfold run, PullSave.main, PullSave.pullAndSave; unfold_m.
  destruct (String.eqb (PullSave.repo f) ""); [reflexivity|].
  destruct (String.eqb (PullSave.out f) ""); cbn [orb];
    repeat (match goal with
            | |- context [os_MkdirAll W ?h ?p ?m] => destruct (os_MkdirAll W h p m)
            | |- context [crane_Pull W ?h ?r ?o] => destruct (crane_Pull W h r o)
            | |- context [crane_Save W ?h ?i ?r ?p] => destruct (crane_Save W h i r p)
            end; cbn [fst snd app]);
    rewrite ?Sprintf_image_ref; destruct (PullSave.insecure f); reflexivity.
Qed.

(** ** The HEAD request of the orchestration program *)

Lemma existsb_listing_free (P : Event -> bool) (l : Trace) :
  (forall e, tag_event e = true -> P e = false) -> listing l -> existsb P l = false.
Proof.
  intros HP [Hl _]. induction l as [|e l IH]; [done|]. cbn in Hl.
  apply andb_true_iff in Hl as [He Hl]. cbn. by rewrite (HP e He), IH.
Qed.

Ltac fetched_norm :=
  unfold fetched;
  repeat first
    [ rewrite existsb_app
    | match goal with
      | H : listing ?l |- context [existsb ?P ?l] =>
          rewrite (existsb_listing_free P l) by (assumption || by intros [])
      end ];
  cbn [existsb orb];
  repeat match goal with
         | H : accepted _ _ = _ |- _ => rewrite H
         end;
  rewrite ?existsb_app;
  repeat match goal with
         | H : listing ?l |- context [existsb ?P ?l] =>
             rewrite (existsb_listing_free P l) by (assumption || by intros [])
         end;
  cbn [existsb orb andb].

Lemma orchestrate_timed_requests W f :
  timed_requests (fst (run (Orchestrate.main W f))) =
  if fetched W (fst (run (Orchestrate.main W f))) && Orchestrate.doDelete f &&
     negb (refused W f)
  then [(head_request W f, timeout f)]
  else [].
Proof.
  unfold timed_requests, refused.
  orchestrate_runs W f; observe_norm; fetched_norm;
    repeat match goal with
           | H : Orchestrate.doDelete f = _ |- _ => rewrite H
           | H : Orchestrate.repo f = _ |- _ => rewrite H
           | H : Orchestrate.repo f <> _ |- _ => rewrite (proj2 (String.eqb_neq _ _) H)
           | H : http_NewRequest W _ _ = _ |- _ => rewrite H
           end;
    cbn; rewrite ?andb_false_r; reflexivity.
Qed.

(** ** What follows a failed tag listing *)

Lemma list_errors_skip msg n a b :
  listed a = [] -> list_errors_reported msg n (a ++ b) = list_errors_reported msg n b.
Proof.
  induction a as [|e a IH]; [done|]. destruct e; try discriminate; exact IH.
Qed.

Lemma list_errors_none msg n a :
  listed a = [] -> list_errors_reported msg n a = true.
Proof.
  intros Ha. rewrite <- (app_nil_r a). by rewrite list_errors_skip.
Qed.

Lemma reports_within_nil msg : reports_within msg [].
Proof. intros n rest. by exists n. Qed.

Lemma reports_within_app msg a b :
  reports_within msg a -> reports_within msg b -> reports_within msg (a ++ b).
Proof.
  intros Ha Hb n rest. destruct (Ha n (b ++ rest)) as [n1 H1].
  destruct (Hb n1 rest) as [n2 H2]. exists n2. by rewrite <- app_assoc, H1.
Qed.

Lemma listed_tags_output r : listed (tags_output r) = [].
Proof. destruct r as [[|t tags]|e]; try reflexivity. apply (listed_tag_lines (t :: tags)). Qed.

Lemma listTags_reports W base r h :
  exists es, Orchestrate.listTags W base r h = (es, Done tt) /\
             reports_within list_failed_line es.
Proof.
  rewrite listTags_eq. cbv zeta.
  destruct (name_NewRepository W _) as [nrepo|e].
  - destruct (remote_List W _ _ _) as [tags|e].
    + eexists. split; [reflexivity|]. intros n rest. exists (S n).
      cbn [app list_errors_reported andb].
      apply list_errors_skip, listed_tags_output.
    + eexists. split; [reflexivity|]. intros n rest. exists (S n).
      cbn [app list_errors_reported]. unfold list_failed_line.
      by rewrite String.eqb_refl.
  - eexists. split; [reflexivity|]. intros n rest. by exists n.
Qed.

Lemma orchestrate_list_errors W f :
  list_errors_reported list_failed_line 0 (fst (run (Orchestrate.main W f))) = true.
Proof.
  destruct (run (Orchestrate.main W f)) as [tr code] eqn:H. cbn [fst].
  unfold run, Orchestrate.main in H. fold (base f) in H. fold (timeout f) in H.
  unfold_m.
  match type of H with
  | context [Orchestrate.fetchCatalog W ?a ?b ?h] =>
      destruct (fetchCatalog_run W a b h) as (g & Hev & Hres);
      destruct (Orchestrate.fetchCatalog W a b h) as [es0 [[c|e]|code']]
  end; cbn [fst snd] in *; [| |done]; subst es0.
  2:{ cbn in H. by injection H as <- <-. }
  destruct Hres as (resp & -> & Hdec & Hacc).
  match type of H with
  | context [Orchestrate.printCatalog ?c ?h] =>
      destruct (printCatalog_events c h) as (es1 & Hq & Hes1);
      rewrite Hq in H; clear Hq
  end.
  match type of H with
  | context [forM_ ?l (Orchestrate.listTags W ?b) ?h] =>
      destruct (forM__events (reports_within list_failed_line)
                  (Orchestrate.listTags W b) l
                  (reports_within_nil _) (reports_within_app _)
                  (listTags_reports W b) h) as (es2 & Hl & Hes2);
      rewrite Hl in H; clear Hl
  end.
  assert (Hrest : exists es3 o3,
             (tr, code) =
             (Stdout (Sprintf W ("Registry: %s" +:+ LF) [AStr (base f)]) ::
              Stdout (Sprintln [AStr (LF +:+ "==> 1. Listing catalog via HTTP GET /v2/_catalog")]) ::
              HttpGet (Sprintf W "http://%s/v2/_catalog" [AStr (base f)]) (timeout f) (Ok resp) ::
              es1 ++
              Stdout (Sprintln [AStr (LF +:+ "==> 2. Listing tags for each repository using remote.List()")]) ::
              es2 ++ es3, o3) /\ listed es3 = []).
  { destruct (Orchestrate.doDelete f); cbn [negb] in H.
    - match type of H with
      | context [Orchestrate.deleteSteps W f ?b ?t ?h] =>
          pose proof (deleteSteps_run W f h) as Hrun;
          destruct (Orchestrate.deleteSteps W f b t h) as [es3 o3]
      end.
      cbn [fst snd] in Hrun. apply listed_delete_run in Hrun.
      exists es3, (match o3 with Done _ => 0 | Exited c' => c' end).
      split; [|exact Hrun].
      rewrite <- H. destruct o3; cbn; by rewrite <- ?app_assoc.
    - exists [Stdout (Sprintln [AStr (LF +:+ "Done (no delete requested).")])], 0.
      split; [|reflexivity].
      rewrite <- H. cbn. by rewrite <- ?app_assoc. }
  destruct Hrest as (es3 & o3 & [= -> ->] & Hes3).
  cbn [list_errors_reported].
  rewrite list_errors_skip by (by apply listed_quiet).
  cbn [list_errors_reported].
  destruct (Hes2 0%nat es3) as [n' ->].
  by apply list_errors_none.
Qed.

Lemma Sprintf_list_warning W (e : error) :
  Sprintf W ("Warning: unable to list tags: %v" +:+ LF) [AErr e] = list_warning_line 0 e.
Proof. reflexivity. Qed.

Lemma Sprintf_list_warning_after W (e : error) :
  Sprintf W ("Warning: unable to list tags after delete: %v" +:+ LF) [AErr e] =
  list_warning_line 1 e.
Proof. reflexivity. Qed.

Lemma list_errors_listing msg n repo opts (r : result (list string))
    (w : error -> string) rest :
  (forall e, w e = msg n e) ->
  list_errors_reported msg n
    (RemoteList repo opts r :: tags_output r ++
     match r with Err e => [Stdout (w e)] | Ok _ => [] end ++ rest) =
  list_errors_reported msg (S n) rest.
Proof.
  intros Hw. destruct r as [tags|e].
  - cbn [list_errors_reported andb]. rewrite list_errors_skip by apply listed_tags_output.
    reflexivity.
  - cbn [tags_output app list_errors_reported]. by rewrite Hw, String.eqb_refl.
Qed.

Ltac to_listing :=
  match goal with
  | |- list_errors_reported ?m ?n (RemoteList ?p ?o ?r :: ?l) = _ => idtac
  | |- list_errors_reported ?m ?n (?a :: ?l) = _ =>
      change (list_errors_reported m n l = true); to_listing
  end.

Lemma delete_resolve_list_errors W refStr :
  list_errors_reported list_warning_line 0 (fst (run (DeleteResolve.main W refStr))) = true.
Proof.
  destruct (run (DeleteResolve.main W refStr)) as [tr code] eqn:Hrun. cbn [fst].
  revert Hrun. unfold run, DeleteResolve.main.
  destruct (name_ParseReference W refStr) as [ref|e].
  2:{ unfold_m. cbn. by intros [= <- <-]. }
  unfold bind at 1. unfold call at 1.
  destruct (remote_Head W _ _ _) as [desc|e].
  2:{ destruct (Contains e "MANIFEST_UNKNOWN" || Contains e "404");
        unfold_m; cbn; by intros [= <- <-]. }
  destruct (String.eqb (Digest desc) "") eqn:Hdig.
  { unfold_m. cbn. by intros [= <- <-]. }
  unfold Printf, Println, bind, emit, call, ret.
  repeat match goal with
         | |- context [DeleteResolve.printTags W ?r ?h] =>
             let Hp := fresh "Hp" in
             pose proof (printTags_eq W r h) as Hp; cbv zeta in Hp; rewrite Hp; clear Hp
         end.
  match goal with
  | |- context [remote_List W ?h ?r ?o] => generalize (remote_List W h r o)
  end.
  intros r1.
  assert (Hwarn : forall (r : result (list string)) (w : error -> string) h,
             (match error_of r with
              | Some err => fun _ : Trace => ([Stdout (w err)], Done tt)
              | None => fun _ : Trace => ([], Done tt)
              end) h =
             (match r with Err e => [Stdout (w e)] | Ok _ => [] end, @Done unit tt))
    by (intros [|] w h; reflexivity).
  rewrite (Hwarn r1 (fun err => Sprintf W ("Warning: unable to list tags: %v" +:+ LF) [AErr err])).
  destruct (crane_Delete W _ _ _) as [e|].
  { destruct (Contains e "UNSUPPORTED"); unfold_m; cbn [app fst snd];
      intros [= <- <-]; cbn [app]; to_listing;
      rewrite (list_errors_listing list_warning_line 0 _ _ r1
                 (fun e => Sprintf W ("Warning: unable to list tags: %v" +:+ LF) [AErr e]))
        by apply Sprintf_list_warning;
      reflexivity. }
  cbv beta.
  repeat match goal with
         | |- context [DeleteResolve.printTags W ?r ?h] =>
             let Hp := fresh "Hp" in
             pose proof (printTags_eq W r h) as Hp; cbv zeta in Hp; rewrite Hp; clear Hp
         end.
  match goal with
  | |- context [tags_output (remote_List W ?h ?r ?o)] => generalize (remote_List W h r o)
  end.
  intros r2.
  rewrite (Hwarn r2 (fun err => Sprintf W ("Warning: unable to list tags after delete: %v" +:+ LF) [AErr err])).
  cbn [app fst snd]. intros [= <- <-]. cbn [app]. to_listing.
  rewrite (list_errors_listing list_warning_line 0 _ _ r1
             (fun e => Sprintf W ("Warning: unable to list tags: %v" +:+ LF) [AErr e]))
    by apply Sprintf_list_warning.
  to_listing.
  rewrite <- (app_nil_r (match r2 with Ok _ => [] | Err _ => _ end)).
  rewrite (list_errors_listing list_warning_line 1 _ _ r2
             (fun e => Sprintf W ("Warning: unable to list tags after delete: %v" +:+ LF)
                               [AErr e]))
    by apply Sprintf_list_warning_after.
  reflexivity.
Qed.

Lemma tag_steps_listed W tr :
  length (List.filter (fun s => match fst s with STags => true | _ => false end)
                      (steps W tr)) =
  length (listed tr).
Proof.
  induction tr as [|e tr IH]; [reflexivity|].
  rewrite steps_cons. unfold listed. rewrite omap_cons_event. fold (listed tr).
  rewrite List.filter_app, !length_app, IH. by destruct e.
Qed.

(** ** The claims on whole runs *)

(** *** Errors of network calls *)

(** C2, as stated, fails.  The claim: in every program, a network call
    that returns an error is followed by a fatal log and the end of the
    process, never by more execution.  On the run of the orchestration
    program with the default flags against a registry whose tag listing
    times out, [remote.List] returns an error, the events that follow it
    are not one fatal log line, and the process exits with code [0]. *)
Lemma C2_counterexample_list_error_goes_on :
  let r := run (Orchestrate.main (Sample.world Sample.list_fails) Orchestrate.default_flags) in
  existsb net_error (fst r) = true /\
  errors_terminate net_error (fst r) = false /\
  snd r = 0.
Proof. vm_compute. repeat split; reflexivity. Qed.

(** C2, amended.  In every program, a call other than a tag listing
    ([remote.List]) that returns an error, or whose answer the program's
    wrapper turns into an error, is followed by one fatal log line that
    ends the run with exit code [1]; in particular so is every failed
    network call other than a tag listing.  A tag listing, failed or not,
    is followed by a line of output, and a failed one is not fatal.  In
    the orchestration program the line after it is
    [  remote.List failed: <error>], and the run goes on: every repository
    of the catalog whose name parses is still listed, the HEAD request is
    still sent exactly when the catalog was fetched, [-delete] is set and
    the request can be made, and the exit code is [1] only for a refusal
    or an unrecoverable error.  In the delete/resolve program the line is
    [Warning: unable to list tags: <error>] before the delete and
    [Warning: unable to list tags after delete: <error>] after it, and the
    run goes on: the calls keep the order of [ResolveOrder], every
    resolved digest is deleted, and the exit code is [1] only for a
    reference that does not parse or an unrecoverable error. *)
Theorem C2_errors_terminate_except_listings (W : World) :
  (forall f, errors_end_run W (run (Orchestrate.main W f))) /\
  (forall refStr, errors_end_run W (run (DeleteResolve.main W refStr))) /\
  (forall f, errors_end_run W (run (PullSave.main W f))) /\
  errors_end_run W (run (PullPush.main W)) /\
  (forall e, net_error e = true -> is_list e = false -> unrecoverable W e = true) /\
  (forall f,
     list_errors_reported list_failed_line 0 (fst (run (Orchestrate.main W f))) = true /\
     listed (fst (run (Orchestrate.main W f))) =
       omap (parsed W (base f)) (fetched_catalog W (fst (run (Orchestrate.main W f)))) /\
     timed_requests (fst (run (Orchestrate.main W f))) =
       (if fetched W (fst (run (Orchestrate.main W f))) && Orchestrate.doDelete f &&
           negb (refused W f)
        then [(head_request W f, timeout f)]
        else []) /\
     (snd (run (Orchestrate.main W f)) =? 1) =
       (refused W f || existsb (unrecoverable W) (fst (run (Orchestrate.main W f))))) /\
  (forall refStr,
     list_errors_reported list_warning_line 0
       (fst (run (DeleteResolve.main W refStr))) = true /\
     ResolveOrder (resolve_steps W (fst (run (DeleteResolve.main W refStr))))
                  (snd (run (DeleteResolve.main W refStr))) /\
     delete_refs (fst (run (DeleteResolve.main W refStr))) =
       map digest_ref (resolved (fst (run (DeleteResolve.main W refStr)))) /\
     (snd (run (DeleteResolve.main W refStr)) =? 1) =
       (is_err (name_ParseReference W refStr) ||
        existsb (unrecoverable W) (fst (run (DeleteResolve.main W refStr))))).
Proof.
  split; [apply orchestrate_errors|].
  split; [apply delete_resolve_errors|].
  split; [apply pull_save_errors|].
  split; [apply pull_push_errors|].
  split.
  { intros e [_ He]%andb_true_iff Hl. unfold unrecoverable. by rewrite He, Hl. }
  split.
  - intros f. split; [apply orchestrate_list_errors|].
    split; [apply main_listed|].
    split; [apply orchestrate_timed_requests|].
    apply (orchestrate_exits W f).
  - intros refStr. split; [apply delete_resolve_list_errors|].
    split.
    { destruct (run (DeleteResolve.main W refStr)) as [tr code] eqn:Hrun.
      apply (delete_resolve_order_of W refStr tr code Hrun). }
    split; [apply delete_resolve_digest_ref|].
    apply (delete_resolve_exits W refStr).
Qed.

(** On a registry with three repositories whose tag listings all fail,
    the run with [-repo golang -delete -gc] reports each failure, lists
    the three repositories, deletes by digest, collects, and exits with
    code [0]; and so does the delete/resolve program when both its tag
    listings fail. *)
Example list_errors_go_on_samples :
  let W := Sample.world SampleMore.three_repos_list_fails in
  let r := run (Orchestrate.main W Sample.delete_gc_flags) in
  let r' := run (DeleteResolve.main W DeleteResolve.default_ref) in
  length (listed (fst r)) = 3%nat /\
  length (List.filter
            (fun e => match e with
                      | Stdout s =>
                          String.eqb s
                            ("  remote.List failed: Get http://localhost:5000/v2/golang/tags/list: context deadline exceeded" +:+ LF)
                      | _ => false
                      end) (fst r)) = 3%nat /\
  delete_refs (fst r) = ["localhost:5000/golang@" +:+ Sample.digest1] /\
  commands (fst r) = [gc_args] /\
  snd r = 0 /\
  resolve_steps W (fst r') = [(SDigest, true); (STags, false); (SDelete, true); (STags, false)] /\
  snd r' = 0.
Proof. vm_compute. repeat split; reflexivity. Qed.

(** *** The order of the steps *)

(** C3.  The steps of the orchestration program come in the order of
    [InOrder]: the catalog, then the tag listings, then only with
    [-delete] the digest and after it the delete, then only with [-gc] and
    after a delete that went through the garbage collection; without
    [-delete] the run ends after the tag listings, with exit code [0] when
    the catalog was fetched.  The tag listings are one for each repository
    of the fetched catalog whose name parses, in the order of the catalog,
    and there are as many tag-listing steps as such repositories.  The
    digest step is taken exactly when the catalog was fetched, [-delete] is
    set, [-repo] is given and the request can be made. *)
Theorem C3_steps_in_order (W : World) (f : Orchestrate.Flags) :
  InOrder f (steps W (fst (run (Orchestrate.main W f))))
            (snd (run (Orchestrate.main W f))) /\
  (length (List.filter is_list (fst (run (Orchestrate.main W f)))) <=
   catalog_size W (fst (run (Orchestrate.main W f))))%nat /\
  listed (fst (run (Orchestrate.main W f))) =
    omap (parsed W (base f)) (fetched_catalog W (fst (run (Orchestrate.main W f)))) /\
  length (List.filter (fun s => match fst s with STags => true | _ => false end)
                      (steps W (fst (run (Orchestrate.main W f))))) =
    length (omap (parsed W (base f))
                 (fetched_catalog W (fst (run (Orchestrate.main W f))))) /\
  requests (fst (run (Orchestrate.main W f))) =
    (if fetched W (fst (run (Orchestrate.main W f))) && Orchestrate.doDelete f &&
        negb (refused W f)
     then [head_request W f]
     else []).
Proof.
  split; [apply steps_in_order|]. split; [apply listings_bounded|].
  split; [apply main_listed|].
  split; [by rewrite tag_steps_listed, main_listed|].
  transitivity (map fst (timed_requests (fst (run (Orchestrate.main W f))))).
  - unfold requests, timed_requests.
    induction (fst (run (Orchestrate.main W f))) as [|e tr IH]; [reflexivity|].
    rewrite !omap_cons_event, map_app, IH. by destruct e.
  - rewrite orchestrate_timed_requests. by destruct (_ && _ && _).
Qed.

(** On a registry with three repositories, the run with
    [-repo golang -delete -gc] takes the catalog step, three tag-listing
    steps, the digest, the delete and the garbage collection, in that
    order, though every tag listing fails. *)
Example steps_in_order_sample :
  steps (Sample.world SampleMore.three_repos_list_fails)
    (fst (run (Orchestrate.main (Sample.world SampleMore.three_repos_list_fails)
                                Sample.delete_gc_flags))) =
  [(SCatalog, true); (STags, false); (STags, false); (STags, false);
   (SDigest, true); (SDelete, true); (SGC, true)].
Proof. vm_compute. reflexivity. Qed.

(** *** Timeouts *)

(** C4.  Pull-and-save makes its one pull whenever [--repo] is given and
    the output folder is not refused, and the options of that pull end
    with a context timeout of ten minutes.  The delete/resolve program
    makes its one [remote.Head] whenever the reference parses, under a
    context with a timeout of ten seconds.  The orchestration program
    makes its GET of the catalog with the timeout of the [-timeout] flag,
    and sends its HEAD request, whenever the catalog was fetched,
    [-delete] is set and the request can be made, with that same timeout;
    the default of the flag is ten seconds. *)
Theorem C4_timeouts (W : World) :
  (forall f,
     pulls (fst (run (PullSave.main W f))) =
       (if String.eqb (PullSave.repo f) "" ||
           existsb folder_failed (fst (run (PullSave.main W f)))
        then []
        else [(PullSave.registry f +:+ "/" +:+ PullSave.repo f +:+ ":" +:+ PullSave.tag f,
               (if PullSave.insecure f then [crane_Insecure] else []) ++
               [crane_WithContextTimeout (10 * Minute)])]) /\
     forallb (pull_timeout (10 * Minute)) (fst (run (PullSave.main W f))) = true) /\
  10 * Minute = 600 * Second /\
  (forall refStr,
     heads (fst (run (DeleteResolve.main W refStr))) =
       match name_ParseReference W refStr with
       | Ok ref => [(ref, [remote_WithContext (WithTimeout Background (10 * Second))])]
       | Err _ => []
       end /\
     forallb (head_deadline (10 * Second)) (fst (run (DeleteResolve.main W refStr))) = true) /\
  (forall f,
     gets (fst (run (Orchestrate.main W f))) =
       [("http://" +:+ base f +:+ "/v2/_catalog", dmul (Orchestrate.timeoutSec f) Second)] /\
     timed_requests (fst (run (Orchestrate.main W f))) =
       (if fetched W (fst (run (Orchestrate.main W f))) && Orchestrate.doDelete f &&
           negb (refused W f)
        then [(head_request W f, dmul (Orchestrate.timeoutSec f) Second)]
        else []) /\
     forallb (head_timeout f) (fst (run (Orchestrate.main W f))) = true) /\
  Orchestrate.timeoutSec Orchestrate.default_flags = 10 /\
  timeout Orchestrate.default_flags = 10 * Second.
Proof.
  split.
  { intros f. split; [apply pull_save_pulls_exact | apply pull_save_timeout]. }
  split; [reflexivity|].
  split.
  { intros refStr. split; [apply delete_resolve_heads | apply delete_resolve_head_deadline]. }
  split.
  { intros f. split; [apply orchestrate_gets|].
    split; [apply orchestrate_timed_requests | apply orchestrate_head_timeout]. }
  split; reflexivity.
Qed.

(** On the sample registry the three programs make these calls, with
    these timeouts. *)
Lemma C4_witness :
  pulls (fst (run (PullSave.main (Sample.world Sample.fine) Sample.nested_repo_flags))) =
    [("localhost:5000/library/golang:latest",
      [crane_Insecure; crane_WithContextTimeout (600 * Second)])] /\
  heads (fst (run (DeleteResolve.main (Sample.world Sample.fine) DeleteResolve.default_ref))) =
    [({| Context := {| RegistryStr := "localhost:5000"; RepositoryStr := "mybusybox" |};
         Identifier := "latest" |},
      [remote_WithContext (WithTimeout Background (10 * Second))])] /\
  gets (fst (run (Orchestrate.main (Sample.world Sample.fine) Sample.delete_gc_flags))) =
    [("http://localhost:5000/v2/_catalog", 10 * Second)] /\
  map snd (timed_requests
             (fst (run (Orchestrate.main (Sample.world Sample.fine) Sample.delete_gc_flags)))) =
    [10 * Second].
Proof.
  destruct (C4_timeouts (Sample.world Sample.fine)) as (Hpull & _ & Hhead & Hhttp & _).
  split; [rewrite (proj1 (Hpull Sample.nested_repo_flags)); reflexivity|].
  split; [rewrite (proj1 (Hhead DeleteResolve.default_ref)); reflexivity|].
  destruct (Hhttp Sample.delete_gc_flags) as (Hget & Hreq & _).
  split; [rewrite Hget; reflexivity|].
  rewrite Hreq. reflexivity.
Defined.

(** *** Delete by digest *)

(** C8.  The delete/resolve program makes one [remote.Head] for the
    parsed reference, and asks for a delete exactly when that call
    returned a digest: the deletes of a run are the digests its
    [remote.Head] calls resolved, each as the name of the repository of
    the reference, an [@] and the digest.  The tag of the reference is no
    part of it: two runs whose references name the same repository and
    resolve to the same digest ask for the same delete, whatever their
    tags. *)
Theorem C8_delete_by_digest (W : World) (refStr : string) :
  heads (fst (run (DeleteResolve.main W refStr))) =
    match name_ParseReference W refStr with
    | Ok ref => [(ref, DeleteResolveRuns.head_opts)]
    | Err _ => []
    end /\
  delete_refs (fst (run (DeleteResolve.main W refStr))) =
    map (fun rd => Repository_Name (Context (fst rd)) +:+ "@" +:+ snd rd)
        (resolved (fst (run (DeleteResolve.main W refStr)))) /\
  (forall refStr',
     map untagged (resolved (fst (run (DeleteResolve.main W refStr)))) =
     map untagged (resolved (fst (run (DeleteResolve.main W refStr')))) ->
     delete_refs (fst (run (DeleteResolve.main W refStr))) =
     delete_refs (fst (run (DeleteResolve.main W refStr')))) /\
  (delete_refs (fst (run (DeleteResolve.main W refStr))) = [] \/
   exists ref desc,
     name_ParseReference W refStr = Ok ref /\
     In (RemoteHead ref DeleteResolveRuns.head_opts (Ok desc))
        (fst (run (DeleteResolve.main W refStr))) /\
     delete_refs (fst (run (DeleteResolve.main W refStr))) =
       [Repository_Name (Context ref) +:+ "@" +:+ Digest desc]).
Proof.
  split; [apply delete_resolve_heads|].
  split; [apply delete_resolve_digest_ref|].
  split; [|apply delete_resolve_delete_ref].
  intros refStr' Hsame. rewrite !delete_resolve_digest_ref.
  rewrite <- !(map_ext (fun rd => Repository_Name (fst (untagged rd)) +:+ "@" +:+
                                  Hash_String (snd (untagged rd)))
                       digest_ref) by (intros; reflexivity).
  rewrite <- !(map_map untagged
                 (fun p => Repository_Name (fst p) +:+ "@" +:+ Hash_String (snd p))).
  by rewrite Hsame.
Qed.

(** Against the sample registry, asked with the tags [latest] and
    [stable] of [localhost:5000/mybusybox], whose digest is the same, the
    program asks for the same delete, of the digest. *)
Lemma C8_witness :
  delete_refs (fst (run (DeleteResolve.main (SampleTags.world Sample.fine) "latest"))) =
    ["localhost:5000/mybusybox@" +:+ Sample.digest1] /\
  delete_refs (fst (run (DeleteResolve.main (SampleTags.world Sample.fine) "latest"))) =
  delete_refs (fst (run (DeleteResolve.main (SampleTags.world Sample.fine) "stable"))) /\
  map (fun rd => Identifier (fst rd))
      (resolved (fst (run (DeleteResolve.main (SampleTags.world Sample.fine) "latest")))) =
    ["latest"] /\
  map (fun rd => Identifier (fst rd))
      (resolved (fst (run (DeleteResolve.main (SampleTags.world Sample.fine) "stable")))) =
    ["stable"].
Proof.
  destruct (C8_delete_by_digest (SampleTags.world Sample.fine) "latest")
    as (_ & Href & Hsame & _).
  split; [rewrite Href; reflexivity|].
  split; [apply (Hsame "stable"); reflexivity|].
  split; reflexivity.
Defined.
